(** * get-github-permalink: the permalink resolver of [src/extension.ts]

    A shallow embedding of the extension's core: the two remote-URL
    patterns and [parseGithubUrl], the repository lookup
    [getRepositoryInfo], the guards [failIfChangedFile] and
    [getCommitHash], the anchor [getLineAnchor] and the assembly
    [getLinkForSelection], followed by the properties the specification
    states about them. *)

From Stdlib Require Import List NArith Arith Lia Bool String Ascii DecimalString.
From Stdlib Require Import DecimalN.
Import ListNotations.

Abbreviation length := Datatypes.length (only parsing).

(** ** JavaScript strings

    A JavaScript string is a sequence of UTF-16 code units; the regular
    expressions of the source carry no [u] flag, so they work on code
    units too.  A code unit is a number; a literal of the source is written
    [js "..."]. *)

Definition codeunit := N.
Definition jsstring := list codeunit.

Definition js (s : string) : jsstring :=
  map N_of_ascii (list_ascii_of_string s).

Definition jsstring_eqb (a b : jsstring) : bool :=
  if list_eq_dec N.eq_dec a b then true else false.

(** [a ?? b] *)
Definition nullish {A : Type} (a b : option A) : option A :=
  match a with
  | Some x => Some x
  | None => b
  end.

Infix "??" := nullish (at level 61, left associativity).

(** ** Regular expressions, as ECMAScript matches them

    The fragment of the pattern language the two patterns use, with the
    backtracking order of the language: a greedy quantifier tries the
    longer match first, a lazy one the shorter. *)

Module Regex.

Inductive atom : Type :=
| Lit (c : codeunit)       (* a literal character *)
| Dot                      (* [.] *)
| NotOf (cs : jsstring).   (* [[^...]] *)

Inductive regex : Type :=
| Atom (a : atom)
| Bol                      (* [^] *)
| Eol                      (* [$] *)
| Eps
| Seq (r1 r2 : regex)
| Opt (r : regex)          (* [(?:r)?], greedy *)
| Plus (lazy : bool) (a : atom)   (* [a+] and [a+?] *)
| Group (name : string) (r : regex).   (* [(?<name>r)] *)

(** LineTerminator: LF, CR, LS, PS. *)
Definition isLineTerminator (c : codeunit) : bool :=
  ((c =? 10) || (c =? 13) || (c =? 8232) || (c =? 8233))%N.

Definition atom_matches (a : atom) (c : codeunit) : bool :=
  match a with
  | Lit d => (c =? d)%N
  | Dot => negb (isLineTerminator c)
  | NotOf cs => negb (existsb (N.eqb c) cs)
  end.

(** The literal characters of [l], one after the other. *)
Fixpoint lits (l : jsstring) : regex :=
  match l with
  | [] => Eps
  | c :: l' => Seq (Atom (Lit c)) (lits l')
  end.

Definition captures := list (string * jsstring).
Definition cont := jsstring -> captures -> option captures.

Fixpoint lookup (name : string) (g : captures) : option jsstring :=
  match g with
  | [] => None
  | (n, v) :: g' => if String.eqb n name then Some v else lookup name g'
  end.

Fixpoint plus_match (lazy : bool) (a : atom) (k : cont)
         (s : jsstring) (g : captures) : option captures :=
  match s with
  | [] => None
  | c :: s' =>
    if atom_matches a c then
      if lazy then
        match k s' g with
        | Some r => Some r
        | None => plus_match lazy a k s' g
        end
      else
        match plus_match lazy a k s' g with
        | Some r => Some r
        | None => k s' g
        end
    else None
  end.

(** [rmatch input r k s g]: match [r] at the suffix [s] of [input], then
    go on with [k]; [None] is failure, after which the caller
    backtracks. *)
Fixpoint rmatch (input : jsstring) (r : regex) (k : cont)
         (s : jsstring) (g : captures) : option captures :=
  match r with
  | Atom a =>
    match s with
    | c :: s' => if atom_matches a c then k s' g else None
    | [] => None
    end
  | Bol => if length s =? length input then k s g else None
  | Eol => match s with [] => k s g | _ :: _ => None end
  | Eps => k s g
  | Seq r1 r2 => rmatch input r1 (fun s' g' => rmatch input r2 k s' g') s g
  | Opt r1 =>
    match rmatch input r1 k s g with
    | Some x => Some x
    | None => k s g
    end
  | Plus lazy a => plus_match lazy a k s g
  | Group name r1 =>
    rmatch input r1
           (fun s' g' => k s' ((name, firstn (length s - length s') s) :: g'))
           s g
  end.

(** The search of [RegExp.prototype.exec] for a pattern without flags:
    the match is tried at index 0, then 1, ... up to the length. *)
Fixpoint search (input : jsstring) (r : regex) (s : jsstring)
  : option captures :=
  match rmatch input r (fun _ g => Some g) s [] with
  | Some g => Some g
  | None =>
    match s with
    | [] => None
    | _ :: s' => search input r s'
    end
  end.

Definition exec (r : regex) (input : jsstring) : option captures :=
  search input r input.

End Regex.

Import Regex.

Infix ";;" := Seq (at level 62, right associativity).

(** [url.match(re)] for a pattern without the [g] flag: the named groups
    of the first match, or [null]. *)
Definition String_match (url : jsstring) (re : regex) : option captures :=
  exec re url.

(** ** The collaborators' data

    [vscode.Uri]: the five components of a URI.  [fsPath] and [toString]
    are computed by the editor from them and from the platform; they are
    part of [Host] below. *)

Module vscode.
Record Uri : Type := {
  scheme : jsstring;
  authority : jsstring;
  path : jsstring;
  query : jsstring;
  fragment : jsstring
}.
End vscode.

(** Modelled from the spec: the declarations of [./typing/git] (the Git
    extension's API), which the source imports and which are not among the
    source files.  Section 6 of the specification gives what the core
    reads of them: a repository has [rootUri] and [state]; the state has
    [remotes], each with an optional [fetchUrl] and an optional [pushUrl],
    [workingTreeChanges], each with a [uri], and an optional [HEAD] with an
    optional [commit]; section 3 adds the name of a remote. *)
Module Git.
Record Remote : Type := {
  name : jsstring;
  fetchUrl : option jsstring;
  pushUrl : option jsstring
}.

Record Change : Type := {
  uri : vscode.Uri
}.

Record Branch : Type := {
  commit : option jsstring
}.

Record RepositoryState : Type := {
  HEAD : option Branch;
  remotes : list Remote;
  workingTreeChanges : list Change
}.

Record Repository : Type := {
  rootUri : vscode.Uri;
  state : RepositoryState
}.

Record API : Type := {
  getRepository : vscode.Uri -> option Repository
}.
End Git.

(** Node's [path] module is [path.posix] or [path.win32], after the
    platform; [path.sep] is its separator. *)
Inductive platform : Type := posix | win32.

Definition path_sep (os : platform) : codeunit :=
  match os with
  | posix => 47   (* "/" *)
  | win32 => 92   (* "\\" *)
  end%N.

(** What the resolver asks of the editor and of Node and does not compute
    itself: the platform, [path.relative], [uri.fsPath] and
    [uri.toString()]. *)
Record Host : Type := {
  os : platform;
  path_relative : jsstring -> jsstring -> jsstring;
  fsPath : vscode.Uri -> jsstring;
  Uri_toString : vscode.Uri -> jsstring
}.

(** ** The [URL] class

    [getLinkForSelection] builds its result with the [URL] class: it
    parses "https://github.com", then assigns [pathname] and [hash].  The
    setters are those of the URL standard that Node implements, for a
    URL whose scheme is special ([https]): the value is converted to
    scalar values, tabs and newlines are dropped, and the path state or
    the fragment state of the parser runs over the rest. *)

Module URL.

Record t : Type := {
  scheme : jsstring;
  host : jsstring;
  path : list jsstring;
  fragment : option jsstring
}.

Definition isHighSurrogate (c : N) : bool := ((0xD800 <=? c) && (c <=? 0xDBFF))%N.
Definition isLowSurrogate (c : N) : bool := ((0xDC00 <=? c) && (c <=? 0xDFFF))%N.

(** The conversion of a string to scalar values: a surrogate pair is one
    code point, a lone surrogate becomes U+FFFD. *)
Fixpoint toUSV (s : jsstring) : list N :=
  match s with
  | [] => []
  | c :: s' =>
    if isHighSurrogate c then
      match s' with
      | d :: s'' =>
        if isLowSurrogate d
        then (0x10000 + (c - 0xD800) * 0x400 + (d - 0xDC00))%N :: toUSV s''
        else 0xFFFD%N :: toUSV s'
      | [] => [0xFFFD%N]
      end
    else if isLowSurrogate c then 0xFFFD%N :: toUSV s'
    else c :: toUSV s'
  end.

Definition utf8 (cp : N) : list N :=
  (if cp <? 0x80 then [cp]
   else if cp <? 0x800 then [0xC0 + cp / 0x40; 0x80 + cp mod 0x40]
   else if cp <? 0x10000 then
     [0xE0 + cp / 0x1000; 0x80 + (cp / 0x40) mod 0x40; 0x80 + cp mod 0x40]
   else
     [0xF0 + cp / 0x40000; 0x80 + (cp / 0x1000) mod 0x40;
      0x80 + (cp / 0x40) mod 0x40; 0x80 + cp mod 0x40])%N.

Definition hexDigit (d : N) : codeunit :=
  (if d <? 10 then 48 + d else 55 + d)%N.

(** "%" and the two upper-case hexadecimal digits of the byte. *)
Definition percentEncodeByte (b : N) : jsstring :=
  [37; hexDigit ((b / 16) mod 16); hexDigit (b mod 16)]%N.

Definition inC0ControlSet (c : N) : bool := ((c <=? 0x1F) || (0x7E <? c))%N.

(** space, double quote, [<], [>], backquote *)
Definition inFragmentSet (c : N) : bool :=
  inC0ControlSet c || existsb (N.eqb c) [0x20; 0x22; 0x3C; 0x3E; 0x60]%N.

(** space, double quote, [#], [<], [>] *)
Definition inQuerySet (c : N) : bool :=
  inC0ControlSet c || existsb (N.eqb c) [0x20; 0x22; 0x23; 0x3C; 0x3E]%N.

(** [?], [^], backquote, [{], [}].  The [URL] class of a Node release
    that follows an older edition of the standard leaves [^] as it is;
    every claim and further property below either keeps that character
    out by hypothesis or says nothing about it. *)
Definition inPathSet (c : N) : bool :=
  inQuerySet c || existsb (N.eqb c) [0x3F; 0x5E; 0x60; 0x7B; 0x7D]%N.

Definition percentEncode (set : N -> bool) (cp : N) : jsstring :=
  if set cp then flat_map percentEncodeByte (utf8 cp) else [cp].

Definition removeTabNewline (input : list N) : list N :=
  filter (fun c => negb ((c =? 9) || (c =? 10) || (c =? 13))%N) input.

Definition asciiLower (c : codeunit) : codeunit :=
  (if (65 <=? c) && (c <=? 90) then c + 32 else c)%N.

Definition isSingleDot (buffer : jsstring) : bool :=
  existsb (jsstring_eqb (map asciiLower buffer)) [js "."; js "%2e"].

Definition isDoubleDot (buffer : jsstring) : bool :=
  existsb (jsstring_eqb (map asciiLower buffer))
          [js ".."; js ".%2e"; js "%2e."; js "%2e%2e"].

(** In a special URL both [/] and [\] end a path segment. *)
Definition isSeparator (c : N) : bool := ((c =? 47) || (c =? 92))%N.

Definition shorten (p : list jsstring) : list jsstring := removelast p.

(** The end of a segment, at a separator or at the end of the input. *)
Definition endSegment (atSeparator : bool) (buffer : jsstring)
           (p : list jsstring) : list jsstring :=
  if isDoubleDot buffer then
    if atSeparator then shorten p else shorten p ++ [[]]
  else if isSingleDot buffer then
    if atSeparator then p else p ++ [[]]
  else p ++ [buffer].

Fixpoint pathState (input : list N) (buffer : jsstring)
         (p : list jsstring) : list jsstring :=
  match input with
  | [] => endSegment false buffer p
  | c :: rest =>
    if isSeparator c
    then pathState rest [] (endSegment true buffer p)
    else pathState rest (buffer ++ percentEncode inPathSet c) p
  end.

Definition pathStartState (input : list N) : list jsstring :=
  match input with
  | c :: rest => if isSeparator c then pathState rest [] []
                 else pathState input [] []
  | [] => pathState [] [] []
  end.

(** [url.pathname = value] *)
Definition set_pathname (url : t) (value : jsstring) : t :=
  {| scheme := scheme url; host := host url;
     path := pathStartState (removeTabNewline (toUSV value));
     fragment := fragment url |}.

(** [url.hash = value] *)
Definition set_hash (url : t) (value : jsstring) : t :=
  match value with
  | [] => {| scheme := scheme url; host := host url; path := path url;
             fragment := None |}
  | c :: rest =>
    let input := if (c =? 35)%N then rest else value in
    {| scheme := scheme url; host := host url; path := path url;
       fragment :=
         Some (flat_map (percentEncode inFragmentSet)
                        (removeTabNewline (toUSV input))) |}
  end.

Definition pathname (url : t) : jsstring :=
  flat_map (fun segment => 47%N :: segment) (path url).

(** [url.toString()], which is [url.href] *)
Definition toString (url : t) : jsstring :=
  scheme url ++ js "://" ++ host url ++ pathname url ++
  match fragment url with
  | None => []
  | Some f => 35%N :: f
  end.

(** [new URL("https://github.com")] *)
Definition github : t :=
  {| scheme := js "https"; host := js "github.com"; path := [[]];
     fragment := None |}.

End URL.

(** ** JavaScript built-ins the resolver uses *)

(** [s.split(sep)] for a separator of one code unit, which [path.sep] is *)
Fixpoint split (sep : codeunit) (s : jsstring) : list jsstring :=
  match s with
  | [] => [[]]
  | c :: s' =>
    if (c =? sep)%N then [] :: split sep s'
    else match split sep s' with
         | token :: tokens => (c :: token) :: tokens
         | [] => [[c]]
         end
  end.

(** [tokens.join(sep)] *)
Fixpoint join (sep : jsstring) (tokens : list jsstring) : jsstring :=
  match tokens with
  | [] => []
  | [token] => token
  | token :: tokens' => token ++ sep ++ join sep tokens'
  end.

(** The text of a line number in a template literal.  Line numbers of the
    editor are non-negative integers far below 2^53, where [+ 1] and the
    decimal text are exact. *)
Definition Number_toString (n : N) : jsstring :=
  js (NilEmpty.string_of_uint (N.to_uint n)).

(** ** The source's data *)

Record RepositoryName : Type := {
  organization : jsstring;
  repository : jsstring
}.

Record RepositoryInfo : Type := {
  repositoryName :> RepositoryName;
  rootUri : vscode.Uri;
  state : Git.RepositoryState
}.

Record SelectionInfo : Type := {
  fileUri : vscode.Uri;
  startLine : N;
  endLine : N;
  isSingleLine : bool
}.

(** [util.ts]: the one error class, told apart by its message. *)
Record GetPermalinkError : Type := { message : jsstring }.

(** A call either returns or throws a [GetPermalinkError]. *)
Inductive Result (A : Type) : Type :=
| Ok (value : A)
| Throw (err : GetPermalinkError).

Arguments Ok {A} value.
Arguments Throw {A} err.

Definition bind {A B : Type} (m : Result A) (f : A -> Result B) : Result B :=
  match m with
  | Ok a => f a
  | Throw e => Throw e
  end.

Notation "'let!' x ':=' m 'in' k" := (bind m (fun x => k))
  (at level 10, x name, m at level 100, k at level 200).

Definition failIfUndefined {T : Type} (value : option T)
           (failureMessage : jsstring) : Result T :=
  match value with
  | None => Throw {| message := failureMessage |}
  | Some v => Ok v
  end.

Definition failIfNull {T : Type} (value : option T)
           (failureMessage : jsstring) : Result T :=
  match value with
  | None => Throw {| message := failureMessage |}
  | Some v => Ok v
  end.

(** "^(?:ssh://)?git@github.com:(?<organization>[^/]+)/(?<repository>.+?)(?:.git)?$" *)
Definition GITHUB_REMOTE_SSH_REGEX : regex :=
  Bol ;; Opt (lits (js "ssh://")) ;;
  lits (js "git@github") ;; Atom Dot ;; lits (js "com:") ;;
  Group "organization" (Plus false (NotOf (js "/"))) ;;
  lits (js "/") ;;
  Group "repository" (Plus true Dot) ;;
  Opt (Atom Dot ;; lits (js "git")) ;;
  Eol.

(** "^https?://github.com/(?<organization>[^/]+)/(?<repository>.+?)(?:.git)?$" *)
Definition GITHUB_REMOTE_HTTP_REGEX : regex :=
  Bol ;; lits (js "http") ;; Opt (lits (js "s")) ;; lits (js "://github") ;;
  Atom Dot ;; lits (js "com/") ;;
  Group "organization" (Plus false (NotOf (js "/"))) ;;
  lits (js "/") ;;
  Group "repository" (Plus true Dot) ;;
  Opt (Atom Dot ;; lits (js "git")) ;;
  Eol.

(** Both patterns have named groups, so [match.groups] is defined on every
    match; both groups lie on every path through either pattern, so both
    properties are strings on every match ([groups_defined] below). *)
Definition parseGithubUrl (url : option jsstring) : option RepositoryName :=
  match url with
  | None => None
  | Some url =>
    match String_match url GITHUB_REMOTE_SSH_REGEX
          ?? String_match url GITHUB_REMOTE_HTTP_REGEX with
    | None => None
    | Some groups =>
      match lookup "organization" groups, lookup "repository" groups with
      | Some organization, Some repository =>
        Some {| organization := organization; repository := repository |}
      | _, _ => None
      end
    end
  end.


(** The [for ... of] loop of [getRepositoryInfo] *)
Fixpoint firstGithubRemote (remotes : list Git.Remote) : option RepositoryName :=
  match remotes with
  | [] => None
  | remote :: rest =>
    match parseGithubUrl (Git.fetchUrl remote ?? Git.pushUrl remote) with
    | Some repositoryName => Some repositoryName
    | None => firstGithubRemote rest
    end
  end.

Section Resolver.

Variable host : Host.

Definition getRepositoryInfo (git : Git.API) (fileUri : vscode.Uri)
  : Result RepositoryInfo :=
  let! repository :=
    failIfNull (Git.getRepository git fileUri)
               (js "No matching repository found for file "
                   ++ Uri_toString host fileUri) in
  match firstGithubRemote (Git.remotes (Git.state repository)) with
  | Some repositoryName =>
    Ok {| repositoryName := repositoryName;
          state := Git.state repository;
          rootUri := Git.rootUri repository |}
  | None =>
    Throw {| message := js "No GitHub origins found for matching repository" |}
  end.

Definition getLineAnchor (selection : SelectionInfo) : jsstring :=
  if isSingleLine selection
  then js "L" ++ Number_toString (startLine selection + 1)
  else js "L" ++ Number_toString (startLine selection + 1)
          ++ js "-L" ++ Number_toString (endLine selection + 1).

Definition getCommitHash (repositoryState : Git.RepositoryState)
  : Result jsstring :=
  failIfUndefined
    (match Git.HEAD repositoryState with
     | Some head => Git.commit head
     | None => None
     end)
    (js "Couldn't determine commit sha for HEAD").

(** [forEach] with a [throw] in its callback: the first change with the
    file's path ends the scan. *)
Fixpoint failIfChangedFile_loop (changes : list Git.Change)
         (fileUri : vscode.Uri) : Result unit :=
  match changes with
  | [] => Ok tt
  | change :: rest =>
    if jsstring_eqb (vscode.path (Git.uri change)) (vscode.path fileUri)
    then Throw {| message := js "Can't copy permalink because file "
                                ++ vscode.path fileUri
                                ++ js " has been modified" |}
    else failIfChangedFile_loop rest fileUri
  end.

Definition failIfChangedFile (repositoryState : Git.RepositoryState)
           (fileUri : vscode.Uri) : Result unit :=
  failIfChangedFile_loop (Git.workingTreeChanges repositoryState) fileUri.

Definition getLinkForSelection (git : Git.API) (selection : SelectionInfo)
  : Result URL.t :=
  let! repositoryInfo := getRepositoryInfo git (fileUri selection) in
  let! _ := failIfChangedFile (state repositoryInfo) (fileUri selection) in
  let relativePath :=
      path_relative host (fsPath host (rootUri repositoryInfo))
                    (fsPath host (fileUri selection)) in
  let! commitHash := getCommitHash (state repositoryInfo) in
  let tokenizedRelativePath := split (path_sep (os host)) relativePath in
  let uriPathTokens :=
      [organization repositoryInfo; repository repositoryInfo;
       js "blob"; commitHash] ++ tokenizedRelativePath in
  let url := URL.github in
  let url := URL.set_pathname url (js "/" ++ join (js "/") uriPathTokens) in
  let url := URL.set_hash url (getLineAnchor selection) in
  Ok url.

End Resolver.


(** * Vocabulary of the properties *)

(** The continuation at the end of a pattern: the match is found. *)
Definition k0 : cont := fun _ g => Some g.

(** ** The two patterns

    Both patterns end in the same way: the organization, a slash, the
    repository, the optional suffix and the end of the input. *)

Definition SUFFIX : regex := Opt (Atom Dot ;; lits (js "git")) ;; Eol.

Definition TAIL : regex :=
  Group "organization" (Plus false (NotOf (js "/"))) ;;
  lits (js "/") ;;
  Group "repository" (Plus true Dot) ;;
  SUFFIX.

(** What [(?:.git)?] consumes when it consumes something: one character
    that is no line terminator, then [git]. *)
Definition dot_git (sfx : jsstring) : Prop :=
  exists d, isLineTerminator d = false /\ sfx = d :: js "git".

Definition suffix_ok (sfx : jsstring) : Prop := sfx = [] \/ dot_git sfx.

(** [repo_of comp rp]: the lazy [.+?] stops at [rp] in the text [comp]
    that follows the organization's slash: the shortest non-empty prefix
    after which only the optional suffix is left. *)
Definition repo_of (comp rp : jsstring) : Prop :=
  rp <> [] /\
  forallb (atom_matches Dot) rp = true /\
  exists sfx, comp = rp ++ sfx /\ suffix_ok sfx /\
              forall p1 p2, rp = p1 ++ p2 -> p1 <> [] -> p2 <> [] ->
                            ~ suffix_ok (p2 ++ sfx).

Definition ssh_prefix (pre : jsstring) : Prop :=
  exists d, isLineTerminator d = false /\
            (pre = js "git@github" ++ d :: js "com:" \/
             pre = js "ssh://git@github" ++ d :: js "com:").

Definition http_prefix (pre : jsstring) : Prop :=
  exists d, isLineTerminator d = false /\
            (pre = js "http://github" ++ d :: js "com/" \/
             pre = js "https://github" ++ d :: js "com/").

Definition github_prefix (pre : jsstring) : Prop :=
  ssh_prefix pre \/ http_prefix pre.

Definition notLineTerminator (c : codeunit) : bool := negb (isLineTerminator c).

(** [s] is [x ++ d :: "git"] for a non-empty [x]: the optional suffix of
    the patterns can take its last four characters and leave a repository. *)
Definition endsDotGit (s : jsstring) : bool :=
  (5 <=? length s) && jsstring_eqb (firstn 3 (rev s)) (rev (js "git")).

(** ** The resolver's errors, by their messages *)

Definition NoRepositoryFound (shown : jsstring) : GetPermalinkError :=
  {| message := js "No matching repository found for file " ++ shown |}.

Definition NoGitHubRemote : GetPermalinkError :=
  {| message := js "No GitHub origins found for matching repository" |}.

Definition FileModified (file : jsstring) : GetPermalinkError :=
  {| message := js "Can't copy permalink because file " ++ file
                   ++ js " has been modified" |}.

Definition NoCommitHash : GetPermalinkError :=
  {| message := js "Couldn't determine commit sha for HEAD" |}.

(** The URL of a remote that the specification says is parsed: "its fetch
    URL when present and otherwise its push URL". *)
Definition chosenUrl (remote : Git.Remote) : option jsstring :=
  match Git.fetchUrl remote with
  | Some url => Some url
  | None => Git.pushUrl remote
  end.

(** The same repository state with another [HEAD], and the Git API that
    answers with such states. *)
Definition with_HEAD (head : option Git.Branch) (st : Git.RepositoryState)
  : Git.RepositoryState :=
  {| Git.HEAD := head; Git.remotes := Git.remotes st;
     Git.workingTreeChanges := Git.workingTreeChanges st |}.

Definition API_with_HEAD (head : option Git.Branch) (git : Git.API) : Git.API :=
  {| Git.getRepository := fun u =>
       match Git.getRepository git u with
       | Some r => Some {| Git.rootUri := Git.rootUri r;
                           Git.state := with_HEAD head (Git.state r) |}
       | None => None
       end |}.

(** ** Text that the [URL] setters copy unchanged *)

(** A character that the path state appends to the segment as it is. *)
Definition plainChar (c : codeunit) : bool :=
  negb (URL.inPathSet c) && negb (URL.isSeparator c).

(** A printable ASCII character. *)
Definition printable (c : codeunit) : bool := ((0x1F <? c) && (c <? 0x7F))%N.

(** A path segment of such characters that is not a dot segment. *)
Definition plainSegment (seg : jsstring) : bool :=
  forallb plainChar seg && negb (URL.isSingleDot seg) && negb (URL.isDoubleDot seg).

(** Text without a backslash. *)
Definition clean (seg : jsstring) : Prop := ~ In 92%N seg.

(** What a line anchor is made of: [L], [-] and decimal digits. *)
Definition isDigit (c : codeunit) : bool := ((48 <=? c) && (c <=? 57))%N.

Definition anchorChar (c : codeunit) : bool :=
  (c =? 76)%N || (c =? 45)%N || isDigit c.

(** The URL that [getLinkForSelection] assembles from the repository, the
    commit and the relative path. *)
Definition assemble (host : Host) (info : RepositoryInfo) (commitHash : jsstring)
           (selection : SelectionInfo) : URL.t :=
  URL.set_hash
    (URL.set_pathname
       URL.github
       (js "/" ++ join (js "/")
           ([organization info; repository info; js "blob"; commitHash]
              ++ split (path_sep (os host))
                       (path_relative host (fsPath host (rootUri info))
                                      (fsPath host (fileUri selection))))))
    (getLineAnchor selection).

(** [input] is the segments [segs], each two of them separated by one
    slash or backslash. *)
Inductive Interleaved : jsstring -> list jsstring -> Prop :=
| Interleaved_one seg : Interleaved seg [seg]
| Interleaved_more seg c rest segs :
    URL.isSeparator c = true -> Interleaved rest segs ->
    Interleaved (seg ++ c :: rest) (seg :: segs).

(** ** The scenario of the specification's examples

    Repository [foo/bar], checked out at [/repo] with [abc123] as the
    commit of HEAD; the file is [/repo/src/extension.ts]. *)

Module Scenario.

Definition fileAt (p : jsstring) : vscode.Uri :=
  {| vscode.scheme := js "file"; vscode.authority := [];
     vscode.path := p; vscode.query := []; vscode.fragment := [] |}.

Fixpoint stripPrefix (p s : jsstring) : option jsstring :=
  match p, s with
  | [], _ => Some s
  | a :: p', b :: s' => if (a =? b)%N then stripPrefix p' s' else None
  | _ :: _, [] => None
  end.

(** [path.relative(from, to)] for a file [to] inside the directory [from],
    both absolute and normalised: what follows [from] and the separator.
    The scenario asks nothing else of it. *)
Definition relativeInside (sep : codeunit) (from to : jsstring) : jsstring :=
  match stripPrefix (from ++ [sep]) to with
  | Some rest => rest
  | None => to
  end.

(** A POSIX host: the [fsPath] of a [file] URI without authority is its
    path, and the URIs of the scenario need no escaping when shown. *)
Definition posixHost : Host :=
  {| os := posix;
     path_relative := relativeInside (path_sep posix);
     fsPath := vscode.path;
     Uri_toString := fun u => js "file://" ++ vscode.path u |}.

(** A Windows host: the [fsPath] of the file URI [/c:/dir/file] is
    [c:\dir\file]. *)
Definition win32Host : Host :=
  {| os := win32;
     path_relative := relativeInside (path_sep win32);
     fsPath := fun u =>
       map (fun c => if (c =? 47)%N then 92%N else c) (tl (vscode.path u));
     Uri_toString := fun u => js "file://" ++ vscode.path u |}.

Definition origin (url : string) : Git.Remote :=
  {| Git.name := js "origin"; Git.fetchUrl := Some (js url);
     Git.pushUrl := Some (js url) |}.

Definition repoAt (root : string) (head : option Git.Branch)
           (remotes : list Git.Remote) (changes : list Git.Change)
  : Git.Repository :=
  {| Git.rootUri := fileAt (js root);
     Git.state := {| Git.HEAD := head; Git.remotes := remotes;
                     Git.workingTreeChanges := changes |} |}.

Definition gitWith (r : Git.Repository) : Git.API :=
  {| Git.getRepository := fun _ => Some r |}.

Definition abc123 : option Git.Branch :=
  Some {| Git.commit := Some (js "abc123") |}.

Definition foobar : Git.Repository :=
  repoAt "/repo" abc123 [origin "git@github.com:foo/bar.git"] [].

Definition select (file : string) (first last : N) (single : bool)
  : SelectionInfo :=
  {| fileUri := fileAt (js file); startLine := first; endLine := last;
     isSingleLine := single |}.

End Scenario.


(** ** The command

    The rest of [extension.ts]: [getGitOrElse], [getSelectionInfo] and the
    callback that [activate] registers as
    [get-github-permalink.getPermalink].  What the callback reads of the
    editor is a [Window]; what it does to the editor is a list of
    [Effect]s, in the order in which they happen. *)

Module Editor.

Record Position : Type := { line : N; character : N }.

(** [end] is [end_] here. *)
Record Selection : Type := {
  start : Position;
  end_ : Position;
  isSingleLine : bool
}.

Record TextDocument : Type := { fileName : jsstring }.

Record TextEditor : Type := {
  document : TextDocument;
  selection : Selection
}.

End Editor.

(** The callback tells a [GetPermalinkError] from anything else thrown. *)
Inductive Exception : Type :=
| PermalinkException (err : GetPermalinkError)
| OtherException (what : jsstring).

Inductive Outcome (A : Type) : Type :=
| Returns (value : A)
| Throws (e : Exception).

Arguments Returns {A} value.
Arguments Throws {A} e.

Definition ofResult {A : Type} (r : Result A) : Outcome A :=
  match r with
  | Ok a => Returns a
  | Throw err => Throws (PermalinkException err)
  end.

Definition andThen {A B : Type} (m : Outcome A) (f : A -> Outcome B) : Outcome B :=
  match m with
  | Returns a => f a
  | Throws e => Throws e
  end.

Notation "'do!' x ':=' m 'in' k" := (andThen m (fun x => k))
  (at level 10, x name, m at level 100, k at level 200).

(** The exports of the Git extension; [getAPI] may throw. *)
Record GitExtension : Type := { getAPI : N -> Outcome Git.API }.

(** [gitExports] is [vscode.extensions.getExtension("vscode.git")?.exports];
    [Uri_parse] is [vscode.Uri.parse], which may throw;
    [Uri_toString_throws] tells how the call [uri.toString()] ends: [None]
    when it returns, the text of what it throws (a [URIError] for a URI
    that cannot be encoded, such as one with a lone surrogate) otherwise;
    [clipboard_writeText] tells how the promise of
    [vscode.env.clipboard.writeText] settles: [None] when it is fulfilled,
    the text of the reason when it is rejected. *)
Record Window : Type := {
  gitExports : option GitExtension;
  activeTextEditor : option Editor.TextEditor;
  Uri_parse : jsstring -> Outcome vscode.Uri;
  Uri_toString_throws : vscode.Uri -> option jsstring;
  clipboard_writeText : jsstring -> option jsstring
}.

(** [getLinkForSelection] with what its call of [toString] may throw.  In
    [getRepositoryInfo] the template literal with [fileUri.toString()] is
    the second argument of [failIfNull]: the call runs once
    [git.getRepository(fileUri)] has returned and before [failIfNull] is
    entered, whether a repository was found or not.  When it throws, what
    it throws is no [GetPermalinkError] and leaves [getRepositoryInfo] and
    [getLinkForSelection] at once; when it returns, it returns
    [Uri_toString host fileUri], and the rest is [getLinkForSelection] as
    above.  [toStringThrows] is the [Uri_toString_throws] of the window. *)
Definition getLinkForSelection_outcome (host : Host)
           (toStringThrows : vscode.Uri -> option jsstring)
           (git : Git.API) (selection : SelectionInfo) : Outcome URL.t :=
  match toStringThrows (fileUri selection) with
  | Some what => Throws (OtherException what)
  | None => ofResult (getLinkForSelection host git selection)
  end.

Inductive Effect : Type :=
| clipboardWrite (text : jsstring)
| showInformationMessage (text : jsstring)
| showErrorMessage (text : jsstring).

(** A run of the callback ends, or throws what it did not catch. *)
Inductive Run : Type :=
| Finished (effects : list Effect)
| Rethrown (what : jsstring).

Definition getGitOrElse (w : Window) : Outcome Git.API :=
  do! gitExtension :=
    ofResult (failIfUndefined (gitExports w)
                              (js "VSCode Git extension must be configured")) in
  getAPI gitExtension 1.

Definition getSelectionInfo (w : Window) (activeTextEditor : Editor.TextEditor)
  : Outcome SelectionInfo :=
  do! fileUri :=
    Uri_parse w (Editor.fileName (Editor.document activeTextEditor)) in
  let selection := Editor.selection activeTextEditor in
  Returns {| fileUri := fileUri;
             startLine := Editor.line (Editor.start selection);
             endLine := Editor.line (Editor.end_ selection);
             isSingleLine := Editor.isSingleLine selection |}.

(** The [try] block of the callback, up to the link. *)
Definition linkOfWindow (host : Host) (w : Window) : Outcome URL.t :=
  do! git := getGitOrElse w in
  do! activeTextEditor :=
    ofResult (failIfUndefined (activeTextEditor w)
                              (js "Could not find active text editor")) in
  do! selectionInfo := getSelectionInfo w activeTextEditor in
  getLinkForSelection_outcome host (Uri_toString_throws w) git selectionInfo.

(** The callback of [get-github-permalink.getPermalink]. *)
Definition getPermalink (host : Host) (w : Window) : Run :=
  match linkOfWindow host w with
  | Returns link =>
    Finished
      (clipboardWrite (URL.toString link)
       :: match clipboard_writeText w (URL.toString link) with
          | None => [showInformationMessage (js "Copied GitHub link to clipboard")]
          | Some failed => [showErrorMessage (js "Failed copying: " ++ failed)]
          end)
  | Throws (PermalinkException err) => Finished [showErrorMessage (message err)]
  | Throws (OtherException what) => Rethrown what
  end.

(** ** Vocabulary of the further properties *)

(** The same host on another platform. *)
Definition with_os (o : platform) (host : Host) : Host :=
  {| os := o; path_relative := path_relative host; fsPath := fsPath host;
     Uri_toString := Uri_toString host |}.

(** A backslash read as a slash. *)
Definition slashed (c : codeunit) : codeunit :=
  if (c =? 92)%N then 47%N else c.

(** A visible ASCII character other than the backslash. *)
Definition visible (c : codeunit) : bool :=
  ((0x20 <? c) && (c <? 0x7F) && negb (c =? 92))%N.

(** A character that may stand in a serialized URL path: outside the path
    percent-encode set, and no backslash. *)
Definition pathChar (c : codeunit) : bool :=
  negb (URL.inPathSet c) && negb (c =? 92)%N.

(** A character that a serialized URL path holds whether or not the
    [URL] class escapes [^]: visible ASCII other than the double quote,
    [#], [<], [>], [?], the backslash, the backquote, [{] and [}]. *)
Definition pathText (c : codeunit) : bool :=
  visible c
  && negb (existsb (N.eqb c) [0x22; 0x23; 0x3C; 0x3E; 0x3F; 0x60; 0x7B; 0x7D]%N).

Definition notDotSegment (seg : jsstring) : bool :=
  negb (URL.isSingleDot seg) && negb (URL.isDoubleDot seg).

(** The remote without the push URL that [getRepositoryInfo] does not
    read. *)
Definition withoutShadowedPush (remote : Git.Remote) : Git.Remote :=
  match Git.fetchUrl remote with
  | Some _ => {| Git.name := Git.name remote; Git.fetchUrl := Git.fetchUrl remote;
                 Git.pushUrl := None |}
  | None => remote
  end.

(** Some change of the list has the path [p]. *)
Definition changedPath (changes : list Git.Change) (p : jsstring) : Prop :=
  exists change, In change changes /\ vscode.path (Git.uri change) = p.

Definition isNotification (e : Effect) : bool :=
  match e with
  | clipboardWrite _ => false
  | showInformationMessage _ | showErrorMessage _ => true
  end.

(** [repositoryState.HEAD?.commit] *)
Definition headCommit (repositoryState : Git.RepositoryState) : option jsstring :=
  match Git.HEAD repositoryState with
  | Some head => Git.commit head
  | None => None
  end.

(** * Properties *)

(** ** The matcher *)

Section MatcherFacts.

Variable input : jsstring.

Lemma firstn_consumed (w s' : jsstring) :
  firstn (length (w ++ s') - length s') (w ++ s') = w.
Proof.
  rewrite length_app, Nat.add_sub.
  rewrite firstn_app, Nat.sub_diag, firstn_all. simpl. apply app_nil_r.
Qed.

Lemma rmatch_lits_app l k s g :
  rmatch input (lits l) k (l ++ s) g = k s g.
Proof.
  revert k; induction l as [|c l IH]; intros k; simpl; [reflexivity|].
  rewrite N.eqb_refl. apply IH.
Qed.

Lemma rmatch_lits_inv l k s g x :
  rmatch input (lits l) k s g = Some x ->
  exists s', s = l ++ s' /\ k s' g = Some x.
Proof.
  revert k s; induction l as [|c l IH]; intros k s H; simpl in H.
  - exists s; auto.
  - destruct s as [|d s]; [discriminate|].
    destruct (N.eqb_spec d c) as [->|]; [|discriminate].
    apply IH in H. destruct H as (s' & -> & H). exists s'; auto.
Qed.

Lemma plus_greedy_inv a k s g x :
  plus_match false a k s g = Some x ->
  exists p s', s = p ++ s' /\ p <> [] /\
               forallb (atom_matches a) p = true /\ k s' g = Some x.
Proof.
  induction s as [|c s IH]; simpl; [discriminate|].
  destruct (atom_matches a c) eqn:Hc; [|discriminate].
  destruct (plus_match false a k s g) eqn:Hrec.
  - intros [= ->]. destruct (IH eq_refl) as (p & s' & -> & _ & Hp & Hk).
    exists (c :: p), s'. simpl. rewrite Hc, Hp. repeat split; auto; discriminate.
  - intros Hk. exists [c], s. simpl. rewrite Hc. repeat split; auto; discriminate.
Qed.

Lemma plus_greedy_intro a k p s' g x :
  p <> [] -> forallb (atom_matches a) p = true ->
  match s' with [] => True | c :: _ => atom_matches a c = false end ->
  k s' g = Some x ->
  plus_match false a k (p ++ s') g = Some x.
Proof.
  intros Hne Hp Hs Hk.
  assert (Hstop : plus_match false a k s' g = None).
  { destruct s' as [|c s']; simpl; [reflexivity|]. now rewrite Hs. }
  induction p as [|c p IH]; [congruence|].
  simpl in Hp. apply andb_prop in Hp. destruct Hp as [Hc Hp].
  simpl. rewrite Hc.
  destruct p as [|d p].
  - simpl. now rewrite Hstop.
  - rewrite IH; auto. discriminate.
Qed.

Lemma plus_lazy_inv a k s g x :
  plus_match true a k s g = Some x ->
  exists p s', s = p ++ s' /\ p <> [] /\
               forallb (atom_matches a) p = true /\ k s' g = Some x /\
               forall p1 p2, p = p1 ++ p2 -> p1 <> [] -> p2 <> [] ->
                             k (p2 ++ s') g = None.
Proof.
  induction s as [|c s IH]; simpl; [discriminate|].
  destruct (atom_matches a c) eqn:Hc; [|discriminate].
  destruct (k s g) eqn:Hk.
  - intros [= ->]. exists [c], s. simpl. rewrite Hc.
    repeat split; auto; try discriminate.
    intros p1 p2 E H1 H2. destruct p1 as [|e p1]; [congruence|].
    injection E as _ E. destruct p1; destruct p2; try discriminate; congruence.
  - intros H. destruct (IH H) as (p & s' & -> & Hne & Hp & Hk' & Hmin).
    exists (c :: p), s'. simpl. rewrite Hc, Hp.
    repeat split; auto; try discriminate.
    intros p1 p2 E H1 H2. destruct p1 as [|e p1]; [congruence|].
    injection E as _ E. destruct p1 as [|e' p1].
    + simpl in E. subst p2. exact Hk.
    + apply (Hmin (e' :: p1) p2); auto. discriminate.
Qed.

Lemma plus_lazy_intro a k p s' g x :
  p <> [] -> forallb (atom_matches a) p = true ->
  (forall p1 p2, p = p1 ++ p2 -> p1 <> [] -> p2 <> [] ->
                 k (p2 ++ s') g = None) ->
  k s' g = Some x ->
  plus_match true a k (p ++ s') g = Some x.
Proof.
  intros Hne Hp Hmin Hk.
  induction p as [|c p IH]; [congruence|].
  simpl in Hp. apply andb_prop in Hp. destruct Hp as [Hc Hp].
  simpl. rewrite Hc.
  destruct p as [|d p].
  - simpl. now rewrite Hk.
  - rewrite (Hmin [c] (d :: p)); try reflexivity; try discriminate.
    apply IH; auto; try discriminate.
    intros p1 p2 E H1 H2. apply (Hmin (c :: p1) p2); auto; try discriminate.
    now rewrite E.
Qed.

End MatcherFacts.

Lemma SSH_shape :
  GITHUB_REMOTE_SSH_REGEX =
  Bol ;; Opt (lits (js "ssh://")) ;;
  lits (js "git@github") ;; Atom Dot ;; lits (js "com:") ;; TAIL.
Proof. reflexivity. Qed.

Lemma HTTP_shape :
  GITHUB_REMOTE_HTTP_REGEX =
  Bol ;; lits (js "http") ;; Opt (lits (js "s")) ;; lits (js "://github") ;;
  Atom Dot ;; lits (js "com/") ;; TAIL.
Proof. reflexivity. Qed.

Section PatternFacts.

Variable input : jsstring.

Lemma suffix_inv s g x :
  rmatch input SUFFIX k0 s g = Some x -> suffix_ok s /\ x = g.
Proof.
  unfold SUFFIX; cbn [rmatch]. destruct s as [|c s].
  - intros [= <-]. split; [now left|reflexivity].
  - destruct (atom_matches Dot c) eqn:Hc; [|discriminate].
    match goal with
    | |- match ?e with _ => _ end = _ -> _ => destruct e eqn:E; [|discriminate]
    end.
    intros [= <-]. apply rmatch_lits_inv in E. destruct E as (s' & -> & E).
    destruct s'; [|discriminate]. injection E as <-.
    split; [|reflexivity]. right. exists c. split.
    + simpl in Hc. now destruct (isLineTerminator c).
    + now rewrite app_nil_r.
Qed.

Lemma suffix_intro s g :
  suffix_ok s -> rmatch input SUFFIX k0 s g = Some g.
Proof.
  intros [->|(d & Hd & ->)]; [reflexivity|].
  unfold SUFFIX; cbn. now rewrite Hd.
Qed.

Lemma suffix_none s g :
  ~ suffix_ok s -> rmatch input SUFFIX k0 s g = None.
Proof.
  intros Hn. destruct (rmatch input SUFFIX k0 s g) eqn:E; [|reflexivity].
  apply suffix_inv in E. tauto.
Qed.

Lemma notslash_forallb (o : jsstring) :
  forallb (atom_matches (NotOf (js "/"))) o = true <-> ~ In 47%N o.
Proof.
  induction o as [|c o IH]; simpl; [tauto|].
  rewrite andb_true_iff, IH, orb_false_r.
  destruct (N.eqb_spec c 47); simpl; intuition (try discriminate; try congruence).
Qed.

Lemma tail_inv t g x :
  rmatch input TAIL k0 t g = Some x ->
  exists o comp rp,
    t = o ++ 47%N :: comp /\ o <> [] /\ ~ In 47%N o /\ repo_of comp rp /\
    x = ("repository"%string, rp) :: ("organization"%string, o) :: g.
Proof.
  unfold TAIL; cbn [rmatch]. intros H.
  apply plus_greedy_inv in H. destruct H as (o & s1 & -> & Ho & Hns & H).
  apply rmatch_lits_inv in H. destruct H as (comp & -> & H).
  apply plus_lazy_inv in H.
  destruct H as (rp & sfx & -> & Hrp & Hdot & H & Hmin).
  apply suffix_inv in H. destruct H as [Hsfx ->].
  exists o, (rp ++ sfx), rp. repeat split; auto.
  - now apply notslash_forallb.
  - exists sfx. repeat split; auto.
    intros p1 p2 E H1 H2 Hok. specialize (Hmin p1 p2 E H1 H2).
    cbv beta in Hmin. now rewrite suffix_intro in Hmin.
  - now rewrite !firstn_consumed.
Qed.

Lemma tail_intro o comp rp g :
  o <> [] -> ~ In 47%N o -> repo_of comp rp ->
  rmatch input TAIL k0 (o ++ 47%N :: comp) g =
  Some (("repository"%string, rp) :: ("organization"%string, o) :: g).
Proof.
  intros Ho Hns (Hrp & Hdot & sfx & -> & Hsfx & Hmin).
  unfold TAIL; cbn [rmatch].
  apply plus_greedy_intro; auto.
  - now apply notslash_forallb.
  - change (47%N :: rp ++ sfx) with (js "/" ++ rp ++ sfx).
    rewrite rmatch_lits_app.
    apply plus_lazy_intro; auto.
    + intros p1 p2 E H1 H2. apply suffix_none. now apply (Hmin p1 p2).
    + rewrite suffix_intro by assumption. now rewrite !firstn_consumed.
Qed.

End PatternFacts.

(** ** [exec] on an anchored pattern *)

Lemma search_below input r s :
  length s < length input -> search input (Bol ;; r) s = None.
Proof.
  induction s as [|c s IH]; intros Hlt; cbn [search rmatch].
  - destruct (Nat.eqb_spec (length (@nil codeunit)) (length input)); [lia|reflexivity].
  - destruct (Nat.eqb_spec (length (c :: s)) (length input)); [lia|].
    apply IH. simpl in Hlt. lia.
Qed.

(** A pattern that starts with [^] matches at index 0 or not at all. *)
Lemma exec_bol r url :
  exec (Bol ;; r) url = rmatch url r k0 url [].
Proof.
  unfold exec. destruct url as [|c s]; cbn [search rmatch].
  - simpl. fold k0. now destruct (rmatch [] r k0 [] []).
  - rewrite Nat.eqb_refl. fold k0.
    destruct (rmatch (c :: s) r k0 (c :: s) []); [reflexivity|].
    apply search_below. simpl. lia.
Qed.

Lemma dot_matches d : atom_matches Dot d = true <-> isLineTerminator d = false.
Proof. simpl. destruct (isLineTerminator d); intuition discriminate. Qed.

Lemma host_inv input l1 l2 r s g x :
  rmatch input (lits l1 ;; Atom Dot ;; lits l2 ;; r) k0 s g = Some x ->
  exists d t, isLineTerminator d = false /\ s = l1 ++ d :: l2 ++ t /\
              rmatch input r k0 t g = Some x.
Proof.
  cbn [rmatch]. intros H.
  apply rmatch_lits_inv in H. destruct H as (s1 & -> & H).
  destruct s1 as [|d s1]; [discriminate|].
  destruct (atom_matches Dot d) eqn:Hd; [|discriminate].
  apply rmatch_lits_inv in H. destruct H as (t & -> & H).
  exists d, t. repeat split; auto. now apply dot_matches.
Qed.

Lemma host_intro input l1 l2 r d t g :
  isLineTerminator d = false ->
  rmatch input (lits l1 ;; Atom Dot ;; lits l2 ;; r) k0 (l1 ++ d :: l2 ++ t) g =
  rmatch input r k0 t g.
Proof.
  intros Hd. cbn [rmatch]. rewrite rmatch_lits_app.
  apply dot_matches in Hd. rewrite Hd. now rewrite rmatch_lits_app.
Qed.

Lemma ssh_inv url x :
  exec GITHUB_REMOTE_SSH_REGEX url = Some x ->
  exists pre t, ssh_prefix pre /\ url = pre ++ t /\
                rmatch url TAIL k0 t [] = Some x.
Proof.
  rewrite SSH_shape, exec_bol.
  change (rmatch url (Opt (lits (js "ssh://")) ;; ?r) k0 url [])
    with (match rmatch url (lits (js "ssh://") ;; r) k0 url [] with
          | Some y => Some y
          | None => rmatch url r k0 url []
          end).
  destruct (rmatch url (lits (js "ssh://") ;; _) k0 url []) eqn:E.
  - intros [= ->]. cbn [rmatch] in E.
    apply rmatch_lits_inv in E. destruct E as (s1 & -> & E).
    apply host_inv in E. destruct E as (d & t & Hd & -> & E).
    exists (js "ssh://git@github" ++ d :: js "com:"), t.
    split; [exists d; auto|]. split; [reflexivity|exact E].
  - intros H. apply host_inv in H. destruct H as (d & t & Hd & -> & H).
    exists (js "git@github" ++ d :: js "com:"), t.
    split; [exists d; auto|]. split; [|exact H].
    now rewrite <- app_assoc.
Qed.

Lemma ssh_body_intro input pre t x :
  ssh_prefix pre ->
  rmatch input TAIL k0 t [] = Some x ->
  rmatch input (Opt (lits (js "ssh://")) ;; lits (js "git@github") ;;
                Atom Dot ;; lits (js "com:") ;; TAIL) k0 (pre ++ t) [] = Some x.
Proof.
  intros (d & Hd & Hpre) H.
  change (rmatch input (Opt (lits (js "ssh://")) ;; ?r) k0 ?s [])
    with (match rmatch input (lits (js "ssh://") ;; r) k0 s [] with
          | Some y => Some y
          | None => rmatch input r k0 s []
          end).
  destruct Hpre as [-> | ->].
  - replace (rmatch input (lits (js "ssh://") ;; _) k0 _ []) with (@None captures)
      by reflexivity.
    rewrite <- app_assoc.
    change ((d :: js "com:") ++ t) with (d :: js "com:" ++ t).
    now rewrite host_intro.
  - change (js "ssh://git@github" ++ d :: js "com:")
      with (js "ssh://" ++ js "git@github" ++ d :: js "com:").
    rewrite <- !app_assoc.
    change ((d :: js "com:") ++ t) with (d :: js "com:" ++ t).
    change (rmatch input (lits (js "ssh://") ;; ?r) k0 ?s [])
      with (rmatch input (lits (js "ssh://"))
                   (fun s' g' => rmatch input r k0 s' g') s []).
    rewrite rmatch_lits_app, host_intro by assumption. now rewrite H.
Qed.

Lemma ssh_intro pre t x :
  ssh_prefix pre ->
  rmatch (pre ++ t) TAIL k0 t [] = Some x ->
  exec GITHUB_REMOTE_SSH_REGEX (pre ++ t) = Some x.
Proof.
  intros Hpre H. rewrite SSH_shape, exec_bol. now apply ssh_body_intro.
Qed.

Lemma http_body_inv input s x :
  rmatch input (lits (js "http") ;; Opt (lits (js "s")) ;; lits (js "://github") ;;
                Atom Dot ;; lits (js "com/") ;; TAIL) k0 s [] = Some x ->
  exists pre t, http_prefix pre /\ s = pre ++ t /\
                rmatch input TAIL k0 t [] = Some x.
Proof.
  change (rmatch input (lits (js "http") ;; ?r) k0 s [])
    with (rmatch input (lits (js "http"))
                 (fun s' g' => rmatch input r k0 s' g') s []).
  intros H. apply rmatch_lits_inv in H. destruct H as (s1 & -> & H).
  change (rmatch input (Opt (lits (js "s")) ;; ?r) k0 s1 [])
    with (match rmatch input (lits (js "s") ;; r) k0 s1 [] with
          | Some y => Some y
          | None => rmatch input r k0 s1 []
          end) in H.
  destruct (rmatch input (lits (js "s") ;; _) k0 s1 []) eqn:E.
  - injection H as ->.
    change (rmatch input (lits (js "s") ;; ?r) k0 s1 [])
      with (rmatch input (lits (js "s"))
                   (fun s' g' => rmatch input r k0 s' g') s1 []) in E.
    apply rmatch_lits_inv in E. destruct E as (s2 & -> & E).
    apply host_inv in E. destruct E as (d & t & Hd & -> & E).
    exists (js "https://github" ++ d :: js "com/"), t.
    split; [exists d; auto|]. split; [reflexivity|exact E].
  - apply host_inv in H. destruct H as (d & t & Hd & -> & H).
    exists (js "http://github" ++ d :: js "com/"), t.
    split; [exists d; auto|]. split; [reflexivity|exact H].
Qed.

Lemma http_body_intro input pre t x :
  http_prefix pre ->
  rmatch input TAIL k0 t [] = Some x ->
  rmatch input (lits (js "http") ;; Opt (lits (js "s")) ;; lits (js "://github") ;;
                Atom Dot ;; lits (js "com/") ;; TAIL) k0 (pre ++ t) [] = Some x.
Proof.
  intros (d & Hd & Hpre) H.
  change (rmatch input (lits (js "http") ;; ?r) k0 ?s [])
    with (rmatch input (lits (js "http"))
                 (fun s' g' => rmatch input r k0 s' g') s []).
  destruct Hpre as [-> | ->].
  - change (js "http://github" ++ d :: js "com/")
      with (js "http" ++ js "://github" ++ d :: js "com/").
    rewrite <- !app_assoc. rewrite rmatch_lits_app.
    change ((d :: js "com/") ++ t) with (d :: js "com/" ++ t).
    change (rmatch input (Opt (lits (js "s")) ;; ?r) k0 ?s [])
      with (match rmatch input (lits (js "s") ;; r) k0 s [] with
            | Some y => Some y
            | None => rmatch input r k0 s []
            end).
    replace (rmatch input (lits (js "s") ;; _) k0 _ []) with (@None captures)
      by reflexivity.
    now rewrite host_intro.
  - change (js "https://github" ++ d :: js "com/")
      with (js "http" ++ js "s" ++ js "://github" ++ d :: js "com/").
    rewrite <- !app_assoc. rewrite rmatch_lits_app.
    change ((d :: js "com/") ++ t) with (d :: js "com/" ++ t).
    change (rmatch input (Opt (lits (js "s")) ;; ?r) k0 ?s [])
      with (match rmatch input (lits (js "s") ;; r) k0 s [] with
            | Some y => Some y
            | None => rmatch input r k0 s []
            end).
    change (rmatch input (lits (js "s") ;; ?r) k0 ?s [])
      with (rmatch input (lits (js "s"))
                   (fun s' g' => rmatch input r k0 s' g') s []).
    rewrite rmatch_lits_app, host_intro by assumption. now rewrite H.
Qed.

Lemma http_inv url x :
  exec GITHUB_REMOTE_HTTP_REGEX url = Some x ->
  exists pre t, http_prefix pre /\ url = pre ++ t /\
                rmatch url TAIL k0 t [] = Some x.
Proof. rewrite HTTP_shape, exec_bol. apply http_body_inv. Qed.

Lemma http_intro pre t x :
  http_prefix pre ->
  rmatch (pre ++ t) TAIL k0 t [] = Some x ->
  exec GITHUB_REMOTE_HTTP_REGEX (pre ++ t) = Some x.
Proof.
  intros Hpre H. rewrite HTTP_shape, exec_bol. now apply http_body_intro.
Qed.

(** The SSH pattern fails on a string that starts like an HTTP remote. *)
Lemma ssh_fails_on_http pre t :
  http_prefix pre -> exec GITHUB_REMOTE_SSH_REGEX (pre ++ t) = None.
Proof.
  intros (d & _ & Hpre).
  destruct (exec GITHUB_REMOTE_SSH_REGEX (pre ++ t)) eqn:E; [|reflexivity].
  apply ssh_inv in E. destruct E as (pre' & t' & (d' & _ & Hpre') & E & _).
  destruct Hpre as [-> | ->]; destruct Hpre' as [-> | ->]; discriminate.
Qed.

(** ** [parseGithubUrl], characterised *)

Lemma parse_inv url r :
  parseGithubUrl (Some url) = Some r ->
  exists pre comp,
    github_prefix pre /\
    url = pre ++ organization r ++ 47%N :: comp /\
    organization r <> [] /\ ~ In 47%N (organization r) /\
    repo_of comp (repository r).
Proof.
  unfold parseGithubUrl, String_match, nullish.
  destruct (exec GITHUB_REMOTE_SSH_REGEX url) as [x|] eqn:Essh;
    [apply ssh_inv in Essh; destruct Essh as (pre & t & Hpre & -> & E)
    |destruct (exec GITHUB_REMOTE_HTTP_REGEX url) as [x|] eqn:Ehttp;
     [apply http_inv in Ehttp; destruct Ehttp as (pre & t & Hpre & -> & E)
     |discriminate]];
    apply tail_inv in E; destruct E as (o & comp & rp & -> & Ho & Hns & Hrepo & ->);
    cbn; intros [= <-]; exists pre, comp; cbn; unfold github_prefix; auto 10.
Qed.

Lemma parse_intro pre o comp rp :
  github_prefix pre -> o <> [] -> ~ In 47%N o -> repo_of comp rp ->
  parseGithubUrl (Some (pre ++ o ++ 47%N :: comp)) =
  Some {| organization := o; repository := rp |}.
Proof.
  intros Hpre Ho Hns Hrepo. unfold parseGithubUrl, String_match, nullish.
  destruct Hpre as [Hpre|Hpre].
  - rewrite (ssh_intro pre _ _ Hpre (tail_intro _ o comp rp [] Ho Hns Hrepo)).
    reflexivity.
  - rewrite (ssh_fails_on_http pre _ Hpre).
    rewrite (http_intro pre _ _ Hpre (tail_intro _ o comp rp [] Ho Hns Hrepo)).
    reflexivity.
Qed.

(** On every match both named groups are defined: the last branch of
    [parseGithubUrl] is never taken. *)
Lemma groups_defined url groups :
  String_match url GITHUB_REMOTE_SSH_REGEX
  ?? String_match url GITHUB_REMOTE_HTTP_REGEX = Some groups ->
  exists o rp, lookup "organization" groups = Some o /\
               lookup "repository" groups = Some rp.
Proof.
  unfold String_match, nullish.
  destruct (exec GITHUB_REMOTE_SSH_REGEX url) as [x|] eqn:Essh.
  - intros [= <-]. apply ssh_inv in Essh. destruct Essh as (pre & t & _ & _ & E).
    apply tail_inv in E. destruct E as (o & comp & rp & _ & _ & _ & _ & ->).
    now exists o, rp.
  - intros Ehttp. apply http_inv in Ehttp. destruct Ehttp as (pre & t & _ & _ & E).
    apply tail_inv in E. destruct E as (o & comp & rp & _ & _ & _ & _ & ->).
    now exists o, rp.
Qed.

(** ** Where the lazy repository stops *)

Lemma jsstring_eqb_eq a b : jsstring_eqb a b = true <-> a = b.
Proof.
  unfold jsstring_eqb. destruct (list_eq_dec N.eq_dec a b); intuition discriminate.
Qed.

Lemma endsDotGit_true s :
  endsDotGit s = true <-> exists x d, x <> [] /\ s = x ++ d :: js "git".
Proof.
  unfold endsDotGit. rewrite andb_true_iff, jsstring_eqb_eq, Nat.leb_le. split.
  - intros [Hlen E].
    destruct (rev s) as [|c1 [|c2 [|c3 [|d [|e r]]]]] eqn:Er;
      try (apply (f_equal (@length _)) in Er; rewrite length_rev in Er;
           simpl in Er; lia).
    simpl in E. injection E as -> -> ->.
    exists (rev (e :: r)), d. split.
    + intros E. apply (f_equal (@length _)) in E.
      rewrite length_rev in E. discriminate.
    + rewrite <- (rev_involutive s), Er. simpl. rewrite <- !app_assoc. reflexivity.
  - intros (x & d & Hx & ->). split.
    + rewrite length_app. simpl. destruct x; [congruence|simpl; lia].
    + rewrite rev_app_distr. reflexivity.
Qed.

Lemma endsDotGit_false s :
  endsDotGit s = false <-> forall x d, x <> [] -> s <> x ++ d :: js "git".
Proof.
  split.
  - intros H x d Hx E. assert (endsDotGit s = true); [|congruence].
    apply endsDotGit_true. eauto.
  - intros H. destruct (endsDotGit s) eqn:E; [|reflexivity].
    apply endsDotGit_true in E. destruct E as (x & d & Hx & E). now apply H in E.
Qed.

Lemma app_same_length_tail (A : Type) (a b u v : list A) :
  length u = length v -> a ++ u = b ++ v -> a = b /\ u = v.
Proof.
  intros Hlen E.
  assert (Hab : length a = length b).
  { apply (f_equal (@length _)) in E. rewrite !length_app in E. lia. }
  revert b E Hab. induction a as [|c a IH]; intros [|e b] E Hab;
    try discriminate; simpl in *; [auto|].
  injection E as -> E. destruct (IH b E) as [-> ->]; auto.
Qed.

Lemma dot_git_length sfx : dot_git sfx -> length sfx = 4.
Proof. now intros (d & _ & ->). Qed.

Lemma repo_of_git rp :
  rp <> [] -> forallb notLineTerminator rp = true ->
  repo_of (rp ++ js ".git") rp.
Proof.
  intros Hrp Hdot. split; [assumption|]. split; [exact Hdot|].
  exists (js ".git"). split; [reflexivity|]. split.
  - right. exists 46%N. split; reflexivity.
  - intros p1 p2 _ _ H2 [E|E].
    + destruct p2; [congruence|discriminate].
    + apply dot_git_length in E. rewrite length_app in E.
      destruct p2; [congruence|simpl in E; lia].
Qed.

Lemma repo_of_plain rp :
  rp <> [] -> forallb notLineTerminator rp = true -> endsDotGit rp = false ->
  repo_of rp rp.
Proof.
  intros Hrp Hdot Hend. split; [assumption|]. split; [exact Hdot|].
  exists []. split; [now rewrite app_nil_r|]. split; [now left|].
  intros p1 p2 E H1 H2. rewrite app_nil_r. intros [->|(d & _ & ->)]; [congruence|].
  rewrite endsDotGit_false in Hend. now apply (Hend p1 d).
Qed.

Lemma repo_of_strip x rp :
  repo_of (x ++ js ".git") rp -> x <> [] -> rp = x.
Proof.
  intros (Hrp & _ & sfx & E & Hok & Hmin) Hx.
  destruct Hok as [->|Hd].
  - rewrite app_nil_r in E. exfalso. apply (Hmin x (js ".git")); auto.
    + discriminate.
    + right. exists 46%N. split; reflexivity.
  - symmetry. apply (app_same_length_tail _ x rp (js ".git") sfx); auto.
    now rewrite (dot_git_length _ Hd).
Qed.

Lemma repo_of_keep comp rp :
  repo_of comp rp -> endsDotGit comp = false -> rp = comp.
Proof.
  intros (Hrp & _ & sfx & -> & Hok & _) Hend.
  destruct Hok as [->|(d & _ & ->)]; [now rewrite app_nil_r|].
  rewrite endsDotGit_false in Hend. now destruct (Hend rp d Hrp).
Qed.

(** ** The [URL] setters *)

Lemma plainChar_printable c : plainChar c = true -> printable c = true.
Proof.
  unfold plainChar, URL.inPathSet, URL.inQuerySet, URL.inC0ControlSet, printable.
  rewrite !andb_true_iff, !negb_true_iff, !orb_false_iff.
  rewrite N.leb_gt, !N.ltb_ge, !N.ltb_lt. intuition lia.
Qed.

Lemma plainChar_copied c :
  plainChar c = true ->
  URL.isSeparator c = false /\ URL.percentEncode URL.inPathSet c = [c].
Proof.
  unfold plainChar, URL.percentEncode.
  rewrite andb_true_iff, !negb_true_iff. intros [-> ->]. auto.
Qed.

Lemma separator_printable c : URL.isSeparator c = true -> printable c = true.
Proof.
  unfold URL.isSeparator. rewrite orb_true_iff, !N.eqb_eq. now intros [-> | ->].
Qed.

Lemma toUSV_printable s : forallb printable s = true -> URL.toUSV s = s.
Proof.
  induction s as [|c s IH]; [reflexivity|].
  simpl forallb. rewrite andb_true_iff. intros [Hc Hs].
  unfold printable in Hc. rewrite andb_true_iff, !N.ltb_lt in Hc.
  assert (Hh : URL.isHighSurrogate c = false).
  { unfold URL.isHighSurrogate. rewrite andb_false_iff, !N.leb_gt. lia. }
  assert (Hl : URL.isLowSurrogate c = false).
  { unfold URL.isLowSurrogate. rewrite andb_false_iff, !N.leb_gt. lia. }
  cbn [URL.toUSV]. rewrite Hh, Hl, IH by assumption. reflexivity.
Qed.

Lemma removeTabNewline_printable s :
  forallb printable s = true -> URL.removeTabNewline s = s.
Proof.
  induction s as [|c s IH]; [reflexivity|].
  simpl forallb. rewrite andb_true_iff. intros [Hc Hs].
  unfold printable in Hc. rewrite andb_true_iff, !N.ltb_lt in Hc.
  unfold URL.removeTabNewline in *. simpl.
  destruct (N.eqb_spec c 9); [lia|]. destruct (N.eqb_spec c 10); [lia|].
  destruct (N.eqb_spec c 13); [lia|]. simpl. now rewrite IH.
Qed.

Lemma pathState_plain seg rest buf p :
  forallb plainChar seg = true ->
  URL.pathState (seg ++ rest) buf p = URL.pathState rest (buf ++ seg) p.
Proof.
  revert buf. induction seg as [|c seg IH]; intros buf; simpl.
  - now rewrite app_nil_r.
  - rewrite andb_true_iff. intros [Hc Hs].
    destruct (plainChar_copied _ Hc) as [-> ->].
    rewrite IH by assumption. now rewrite <- app_assoc.
Qed.

Lemma endSegment_plain atSeparator seg p :
  plainSegment seg = true -> URL.endSegment atSeparator seg p = p ++ [seg].
Proof.
  unfold plainSegment, URL.endSegment.
  rewrite !andb_true_iff, !negb_true_iff. now intros [[_ ->] ->].
Qed.

Lemma plainSegment_chars seg :
  plainSegment seg = true -> forallb plainChar seg = true.
Proof. unfold plainSegment. rewrite !andb_true_iff. tauto. Qed.

Lemma pathState_interleaved input segs :
  Interleaved input segs -> forallb plainSegment segs = true ->
  forall p, URL.pathState input [] p = p ++ segs.
Proof.
  induction 1 as [seg|seg c rest segs Hc Hrest IH]; simpl forallb;
    rewrite andb_true_iff; intros [Hseg Hsegs] p.
  - rewrite <- (app_nil_r seg) at 1.
    rewrite pathState_plain by now apply plainSegment_chars.
    simpl. now apply endSegment_plain.
  - rewrite pathState_plain by now apply plainSegment_chars.
    simpl. rewrite Hc, endSegment_plain, IH by assumption.
    now rewrite <- app_assoc.
Qed.

Lemma Interleaved_printable input segs :
  Interleaved input segs -> forallb plainSegment segs = true ->
  forallb printable input = true.
Proof.
  induction 1 as [seg|seg c rest segs Hc Hrest IH]; simpl forallb;
    rewrite andb_true_iff; intros [Hseg Hsegs].
  - apply plainSegment_chars in Hseg. rewrite forallb_forall in *.
    intros c Hin. apply plainChar_printable; auto.
  - rewrite forallb_app. cbn [forallb]. rewrite !andb_true_iff.
    split; [|split; [now apply separator_printable|now apply IH]].
    apply plainSegment_chars in Hseg. rewrite forallb_forall in *.
    intros d Hin. apply plainChar_printable; auto.
Qed.

Lemma Interleaved_join c tokens :
  URL.isSeparator c = true -> tokens <> [] ->
  Interleaved (join [c] tokens) tokens.
Proof.
  intros Hc. induction tokens as [|t tokens IH]; [congruence|]. intros _.
  destruct tokens as [|t' tokens].
  - constructor.
  - change (join [c] (t :: t' :: tokens)) with (t ++ c :: join [c] (t' :: tokens)).
    constructor; [assumption|]. apply IH. discriminate.
Qed.

Lemma Interleaved_app a l1 b l2 c :
  Interleaved a l1 -> Interleaved b l2 -> URL.isSeparator c = true ->
  Interleaved (a ++ c :: b) (l1 ++ l2).
Proof.
  intros Ha Hb Hc. induction Ha as [seg|seg d rest segs Hd Hrest IH].
  - now constructor.
  - rewrite <- app_assoc. simpl. constructor; assumption.
Qed.

Lemma pathname_join tokens :
  tokens <> [] ->
  flat_map (fun segment => 47%N :: segment) tokens = js "/" ++ join (js "/") tokens.
Proof.
  induction tokens as [|t tokens IH]; [congruence|]. intros _.
  destruct tokens as [|t' tokens].
  - simpl. now rewrite app_nil_r.
  - change (join (js "/") (t :: t' :: tokens))
      with (t ++ js "/" ++ join (js "/") (t' :: tokens)).
    change (flat_map (fun segment => 47%N :: segment) (t :: t' :: tokens))
      with ((47%N :: t)
              ++ flat_map (fun segment => 47%N :: segment) (t' :: tokens)).
    rewrite IH by discriminate. reflexivity.
Qed.

(** Assigning "/" and segments of plain text to [pathname] stores the
    segments, whichever of the two separators stands between them. *)
Lemma set_pathname_interleaved url input segs :
  Interleaved input segs -> forallb plainSegment segs = true ->
  URL.path (URL.set_pathname url (js "/" ++ input)) = segs.
Proof.
  intros Hin Hsegs. unfold URL.set_pathname. cbn [URL.path].
  assert (Hp : forallb printable (js "/" ++ input) = true).
  { simpl. now apply (Interleaved_printable _ _ Hin). }
  rewrite toUSV_printable, removeTabNewline_printable by
      (try rewrite toUSV_printable; assumption).
  simpl. now rewrite (pathState_interleaved _ _ Hin).
Qed.

Lemma Number_toString_digits n : forallb isDigit (Number_toString n) = true.
Proof.
  unfold Number_toString. generalize (N.to_uint n) as d.
  induction d; simpl; auto.
Qed.

Lemma getLineAnchor_chars selection :
  exists rest, getLineAnchor selection = 76%N :: rest /\
               forallb anchorChar (getLineAnchor selection) = true.
Proof.
  assert (Hd : forall n, forallb anchorChar (Number_toString n) = true).
  { intros n. pose proof (Number_toString_digits n) as H.
    rewrite forallb_forall in *. intros c Hc. unfold anchorChar.
    rewrite (H c Hc). now rewrite orb_true_r. }
  unfold getLineAnchor. destruct (isSingleLine selection).
  - eexists. split; [reflexivity|]. simpl. apply Hd.
  - eexists. split; [reflexivity|].
    change (js "L" ++ ?a ++ js "-L" ++ ?b) with (76%N :: a ++ 45%N :: 76%N :: b).
    cbn [forallb]. rewrite forallb_app. cbn [forallb]. now rewrite !Hd.
Qed.

Lemma anchorChar_copied c :
  anchorChar c = true ->
  printable c = true /\ URL.inFragmentSet c = false /\ c <> 92%N /\ c <> 35%N.
Proof.
  unfold anchorChar, isDigit, printable, URL.inFragmentSet, URL.inC0ControlSet.
  rewrite !orb_true_iff, !andb_true_iff, !N.eqb_eq, !N.leb_le.
  intros H. assert (Hc : (c = 76 \/ c = 45 \/ 48 <= c <= 57)%N) by tauto.
  clear H. simpl existsb. rewrite !orb_false_iff, !N.ltb_lt, !N.eqb_neq.
  rewrite N.leb_gt, N.ltb_ge. lia.
Qed.

(** Assigning a line anchor to [hash] stores it as it is. *)
Lemma set_hash_anchor url selection :
  URL.set_hash url (getLineAnchor selection) =
  {| URL.scheme := URL.scheme url; URL.host := URL.host url;
     URL.path := URL.path url;
     URL.fragment := Some (getLineAnchor selection) |}.
Proof.
  destruct (getLineAnchor_chars selection) as (rest & E & H).
  assert (Hp : forallb printable (getLineAnchor selection) = true).
  { rewrite forallb_forall in *. intros c Hc. now apply anchorChar_copied, H. }
  assert (Hid : flat_map (URL.percentEncode URL.inFragmentSet)
                         (getLineAnchor selection) = getLineAnchor selection).
  { clear E Hp. induction (getLineAnchor selection) as [|c l IH]; [reflexivity|].
    simpl in H. apply andb_prop in H. destruct H as [Hc Hl].
    apply anchorChar_copied in Hc. destruct Hc as (_ & Hc & _).
    simpl. unfold URL.percentEncode at 1. rewrite Hc. simpl. now rewrite IH. }
  rewrite E in *. unfold URL.set_hash. simpl (76 =? 35)%N. cbv iota.
  now rewrite toUSV_printable, removeTabNewline_printable, Hid.
Qed.

(** ** No backslash leaves the [URL] class *)

Lemma hexDigit_no_backslash d : (d < 16)%N -> URL.hexDigit d <> 92%N.
Proof.
  unfold URL.hexDigit. destruct (N.ltb_spec d 10); lia.
Qed.

Lemma percentEncodeByte_no_backslash b : ~ In 92%N (URL.percentEncodeByte b).
Proof.
  unfold URL.percentEncodeByte. simpl.
  intros [E|[E|[E|[]]]]; [discriminate| |];
    revert E; apply hexDigit_no_backslash; now apply N.mod_lt.
Qed.

Lemma percentEncode_no_backslash set c :
  c <> 92%N -> ~ In 92%N (URL.percentEncode set c).
Proof.
  intros Hc. unfold URL.percentEncode. destruct (set c).
  - rewrite in_flat_map. intros (b & _ & Hb).
    now apply percentEncodeByte_no_backslash in Hb.
  - simpl. intuition.
Qed.

Lemma removelast_Forall (A : Type) (P : A -> Prop) (l : list A) :
  Forall P l -> Forall P (removelast l).
Proof.
  induction 1 as [|x l Hx Hl IH]; simpl; [constructor|].
  destruct l; [constructor|]. constructor; assumption.
Qed.

Lemma endSegment_clean atSeparator buffer p :
  clean buffer -> Forall clean p ->
  Forall clean (URL.endSegment atSeparator buffer p).
Proof.
  intros Hb Hp. assert (Hnil : clean []) by (intros []).
  unfold URL.endSegment, URL.shorten.
  destruct (URL.isDoubleDot buffer); [|destruct (URL.isSingleDot buffer)];
    destruct atSeparator;
    repeat (apply Forall_app; split); auto using removelast_Forall.
Qed.

Lemma pathState_clean input buffer p :
  clean buffer -> Forall clean p -> Forall clean (URL.pathState input buffer p).
Proof.
  revert buffer p. induction input as [|c rest IH]; intros buffer p Hb Hp; simpl.
  - now apply endSegment_clean.
  - destruct (URL.isSeparator c) eqn:Hc.
    + apply IH; [intros []|now apply endSegment_clean].
    + apply IH; [|assumption]. unfold clean. rewrite in_app_iff.
      intros [H|H]; [now apply Hb|].
      revert H. apply percentEncode_no_backslash. intros ->. discriminate.
Qed.

Lemma set_pathname_clean url value :
  Forall clean (URL.path (URL.set_pathname url value)).
Proof.
  unfold URL.set_pathname, URL.pathStartState. cbn [URL.path].
  assert (Hnil : clean []) by (intros []).
  destruct (URL.removeTabNewline (URL.toUSV value)) as [|c rest];
    [|destruct (URL.isSeparator c)]; apply pathState_clean; auto.
Qed.

Lemma assemble_no_backslash host info commitHash selection :
  ~ In 92%N (URL.toString (assemble host info commitHash selection)).
Proof.
  unfold assemble. rewrite set_hash_anchor. unfold URL.toString, URL.pathname.
  cbn [URL.scheme URL.host URL.path URL.fragment].
  rewrite !in_app_iff. intros [H|[H|[H|[H|H]]]].
  - simpl in H. intuition discriminate.
  - simpl in H. intuition discriminate.
  - simpl in H. intuition discriminate.
  - apply in_flat_map in H. destruct H as (seg & Hseg & [H|H]); [discriminate|].
    pose proof (set_pathname_clean URL.github
      (js "/" ++ join (js "/")
          ([organization info; repository info; js "blob"; commitHash]
             ++ split (path_sep (os host))
                      (path_relative host (fsPath host (rootUri info))
                                     (fsPath host (fileUri selection)))))) as Hc.
    rewrite Forall_forall in Hc. exact (Hc seg Hseg H).
  - destruct H as [H|H]; [discriminate|].
    destruct (getLineAnchor_chars selection) as (_ & _ & Ha).
    rewrite forallb_forall in Ha. apply Ha, anchorChar_copied in H. tauto.
Qed.

(** ** [split] and [join] *)

Lemma split_nonempty sep s : split sep s <> [].
Proof.
  destruct s as [|c s]; simpl; [discriminate|].
  destruct (c =? sep)%N; [discriminate|]. destruct (split sep s); discriminate.
Qed.

Lemma split_without sep s : ~ In sep s -> split sep s = [s].
Proof.
  induction s as [|c s IH]; intros Hn; simpl; [reflexivity|].
  destruct (N.eqb_spec c sep) as [->|_]; [exfalso; apply Hn; now left|].
  rewrite IH; [reflexivity|]. intros H. apply Hn. now right.
Qed.

Lemma split_app sep a b :
  ~ In sep a -> split sep (a ++ sep :: b) = a :: split sep b.
Proof.
  induction a as [|c a IH]; intros Hn; simpl.
  - now rewrite N.eqb_refl.
  - destruct (N.eqb_spec c sep) as [->|_]; [exfalso; apply Hn; now left|].
    rewrite IH; [reflexivity|]. intros H. apply Hn. now right.
Qed.

Lemma split_join sep segs :
  segs <> [] -> Forall (fun seg => ~ In sep seg) segs ->
  split sep (join [sep] segs) = segs.
Proof.
  induction segs as [|seg segs IH]; [congruence|]. intros _ H.
  inversion H as [|? ? Hseg Hsegs]; subst.
  destruct segs as [|seg' segs].
  - now apply split_without.
  - change (join [sep] (seg :: seg' :: segs))
      with (seg ++ sep :: join [sep] (seg' :: segs)).
    rewrite split_app by assumption. rewrite IH; [reflexivity|discriminate|assumption].
Qed.

Lemma join_app sep l1 l2 :
  l1 <> [] -> l2 <> [] ->
  join sep (l1 ++ l2) = join sep l1 ++ sep ++ join sep l2.
Proof.
  intros H1 H2. induction l1 as [|a l1 IH]; [congruence|].
  destruct l1 as [|b l1].
  - destruct l2; [congruence|reflexivity].
  - change (join sep ((a :: b :: l1) ++ l2))
      with (a ++ sep ++ join sep ((b :: l1) ++ l2)).
    rewrite IH by discriminate. simpl. now rewrite <- !app_assoc.
Qed.

Lemma join_in sep segs c :
  In c (join sep segs) -> In c sep \/ exists seg, In seg segs /\ In c seg.
Proof.
  induction segs as [|seg segs IH]; simpl; [tauto|].
  destruct segs as [|seg' segs].
  - intros H. right. exists seg. auto.
  - rewrite !in_app_iff. intros [H|[H|H]].
    + right. exists seg. auto.
    + now left.
    + destruct (IH H) as [|(s' & Hs' & Hc)]; [now left|].
      right. exists s'. auto.
Qed.

Lemma plainSegment_no_separator seg c :
  plainSegment seg = true -> URL.isSeparator c = true -> ~ In c seg.
Proof.
  intros Hseg Hc Hin. apply plainSegment_chars in Hseg.
  rewrite forallb_forall in Hseg. apply Hseg, plainChar_copied in Hin.
  destruct Hin as [Hin _]. congruence.
Qed.

(** ** The steps of [getLinkForSelection] *)

Lemma getLinkForSelection_steps host git selection info commitHash :
  getRepositoryInfo host git (fileUri selection) = Ok info ->
  failIfChangedFile (state info) (fileUri selection) = Ok tt ->
  getCommitHash (state info) = Ok commitHash ->
  getLinkForSelection host git selection =
  Ok (assemble host info commitHash selection).
Proof.
  intros H1 H2 H3. unfold getLinkForSelection. rewrite H1. cbn [bind].
  rewrite H2. cbn [bind]. rewrite H3. reflexivity.
Qed.

Lemma getLinkForSelection_Ok host git selection url :
  getLinkForSelection host git selection = Ok url ->
  exists info commitHash,
    getRepositoryInfo host git (fileUri selection) = Ok info /\
    failIfChangedFile (state info) (fileUri selection) = Ok tt /\
    getCommitHash (state info) = Ok commitHash /\
    url = assemble host info commitHash selection.
Proof.
  unfold getLinkForSelection.
  destruct (getRepositoryInfo host git (fileUri selection)) as [info|] eqn:E1;
    [|discriminate].
  cbn [bind].
  destruct (failIfChangedFile (state info) (fileUri selection)) as [[]|] eqn:E2;
    [|discriminate].
  cbn [bind].
  destruct (getCommitHash (state info)) as [commitHash|] eqn:E3; [|discriminate].
  cbn [bind]. intros [= <-]. exists info, commitHash. repeat split; assumption.
Qed.

(** Every permalink is free of backslashes. *)
Lemma permalink_no_backslash host git selection url :
  getLinkForSelection host git selection = Ok url ->
  ~ In 92%N (URL.toString url).
Proof.
  intros H. apply getLinkForSelection_Ok in H.
  destruct H as (info & commitHash & _ & _ & _ & ->).
  apply assemble_no_backslash.
Qed.

(** The fragment of every permalink is the line anchor of the selection. *)
Lemma permalink_fragment host git selection url :
  getLinkForSelection host git selection = Ok url ->
  URL.fragment url = Some (getLineAnchor selection).
Proof.
  intros H. apply getLinkForSelection_Ok in H.
  destruct H as (info & commitHash & _ & _ & _ & ->).
  unfold assemble. now rewrite set_hash_anchor.
Qed.

(** A file outside every repository is refused before anything is read. *)
Lemma no_repository host git selection :
  Git.getRepository git (fileUri selection) = None ->
  getLinkForSelection host git selection =
  Throw (NoRepositoryFound (Uri_toString host (fileUri selection))).
Proof.
  intros H. unfold getLinkForSelection, getRepositoryInfo. now rewrite H.
Qed.

(** The assembled URL when the path tokens are plain text, whichever
    separators stand between the segments of the relative path. *)
Lemma assemble_interleaved host (info : RepositoryInfo) commitHash selection segs :
  Interleaved
    (join (js "/")
          ([organization info; repository info; js "blob"; commitHash]
             ++ split (path_sep (os host))
                      (path_relative host (fsPath host (rootUri info))
                                     (fsPath host (fileUri selection)))))
    ([organization info; repository info; js "blob"; commitHash] ++ segs) ->
  segs <> [] ->
  forallb plainSegment
          (organization info :: repository info :: commitHash :: segs) = true ->
  URL.pathname (assemble host info commitHash selection) =
  js "/" ++ organization info ++ js "/" ++ repository info ++ js "/blob/"
     ++ commitHash ++ js "/" ++ join (js "/") segs /\
  URL.fragment (assemble host info commitHash selection) =
  Some (getLineAnchor selection).
Proof.
  intros Hin Hne Hplain. unfold assemble. rewrite set_hash_anchor.
  cbn [URL.fragment]. split; [|reflexivity].
  unfold URL.pathname. cbn [URL.path].
  rewrite (set_pathname_interleaved _ _ _ Hin).
  - rewrite pathname_join by discriminate.
    rewrite (join_app (js "/") [organization info; repository info; js "blob"; commitHash] segs)
      by (assumption || discriminate).
    cbn [join]. rewrite <- !app_assoc. reflexivity.
  - cbn [forallb] in Hplain. rewrite !andb_true_iff in Hplain.
    destruct Hplain as (Ho & Hr & Hh & Hs).
    cbn [app forallb]. rewrite Ho, Hr, Hh, Hs. reflexivity.
Qed.

Lemma toString_assembled url p f :
  URL.scheme url = js "https" -> URL.host url = js "github.com" ->
  URL.pathname url = p -> URL.fragment url = Some f ->
  URL.toString url = js "https://github.com" ++ p ++ js "#" ++ f.
Proof.
  intros Hs Hh Hp Hf. unfold URL.toString. rewrite Hs, Hh, Hp, Hf. reflexivity.
Qed.

Lemma assemble_origin host info commitHash selection :
  URL.scheme (assemble host info commitHash selection) = js "https" /\
  URL.host (assemble host info commitHash selection) = js "github.com".
Proof. unfold assemble. rewrite set_hash_anchor. split; reflexivity. Qed.

(** * The claims *)

(** ** Remote URLs *)

(** C2, as the specification states it, fails: the repository of
    [git@github.com:foo/bar/baz] is [bar/baz], which contains a slash. *)
Lemma C2_repository_may_contain_slash :
  parseGithubUrl (Some (js "git@github.com:foo/bar/baz")) =
  Some {| organization := js "foo"; repository := js "bar/baz" |} /\
  In 47%N (js "bar/baz").
Proof. split; [vm_compute; reflexivity | simpl; tauto]. Qed.

(** C2, amended: whenever [parseGithubUrl] succeeds, the organization is
    not empty and has no slash; the repository is not empty; the URL is a
    prefix of one of the four GitHub forms, the organization, a slash and a
    rest [comp], and the repository is [comp] without its [.git] when [comp]
    is longer than [.git] and ends in it, and all of [comp] when [comp] is
    not some text, one character and [git]. *)
Theorem C2_parse_result_shape (url : jsstring) (r : RepositoryName) :
  parseGithubUrl (Some url) = Some r ->
  organization r <> [] /\ ~ In 47%N (organization r) /\
  repository r <> [] /\
  exists pre comp,
    github_prefix pre /\
    url = pre ++ organization r ++ js "/" ++ comp /\
    (forall x, x <> [] -> comp = x ++ js ".git" -> repository r = x) /\
    (endsDotGit comp = false -> repository r = comp).
Proof.
  intros H. apply parse_inv in H.
  destruct H as (pre & comp & Hpre & -> & Ho & Hns & Hrepo).
  split; [assumption|]. split; [assumption|].
  split; [exact (proj1 Hrepo)|].
  exists pre, comp. split; [assumption|]. split; [reflexivity|]. split.
  - intros x Hx ->. now apply repo_of_strip.
  - intros Hend. now apply repo_of_keep.
Qed.

Lemma C2_parse_result_shape_witness :
  parseGithubUrl (Some (js "git@github.com:foo/bar.git")) =
  Some {| organization := js "foo"; repository := js "bar" |} /\
  exists pre comp,
    github_prefix pre /\
    js "git@github.com:foo/bar.git" = pre ++ js "foo" ++ js "/" ++ comp /\
    (forall x, x <> [] -> comp = x ++ js ".git" -> js "bar" = x) /\
    (endsDotGit comp = false -> js "bar" = comp).
Proof.
  assert (E : parseGithubUrl (Some (js "git@github.com:foo/bar.git")) =
              Some {| organization := js "foo"; repository := js "bar" |})
    by (vm_compute; reflexivity).
  split; [exact E|].
  exact (proj2 (proj2 (proj2 (C2_parse_result_shape _ _ E)))).
Defined.

Lemma ssh_literal : github_prefix (js "git@github.com:").
Proof. left. exists 46%N. split; [reflexivity|]. now left. Qed.

Lemma https_literal : github_prefix (js "https://github.com/").
Proof. right. exists 46%N. split; [reflexivity|]. now right. Qed.

(** Where the two forms of a remote agree: for ORG of one or more
    characters other than a slash and a non-empty REPO without line
    terminator, the forms that end in [.git] parse to ORG and REPO; the
    forms without it do so when REPO is not some text, one character and
    [git]. *)
Lemma both_forms_agree (ORG REPO : jsstring) :
  ORG <> [] -> ~ In 47%N ORG ->
  REPO <> [] -> forallb notLineTerminator REPO = true ->
  let expected := Some {| organization := ORG; repository := REPO |} in
  parseGithubUrl (Some (js "git@github.com:" ++ ORG ++ js "/" ++ REPO ++ js ".git"))
  = expected /\
  parseGithubUrl (Some (js "https://github.com/" ++ ORG ++ js "/" ++ REPO ++ js ".git"))
  = expected /\
  (endsDotGit REPO = false ->
   parseGithubUrl (Some (js "git@github.com:" ++ ORG ++ js "/" ++ REPO)) = expected /\
   parseGithubUrl (Some (js "https://github.com/" ++ ORG ++ js "/" ++ REPO)) = expected).
Proof.
  intros Ho Hns Hr Hlt expected. unfold expected.
  pose proof (repo_of_git REPO Hr Hlt) as Hgit.
  split; [exact (parse_intro _ ORG _ REPO ssh_literal Ho Hns Hgit)|].
  split; [exact (parse_intro _ ORG _ REPO https_literal Ho Hns Hgit)|].
  intros Hend. pose proof (repo_of_plain REPO Hr Hlt Hend) as Hplain.
  split.
  - exact (parse_intro _ ORG _ REPO ssh_literal Ho Hns Hplain).
  - exact (parse_intro _ ORG _ REPO https_literal Ho Hns Hplain).
Qed.

(** C3: the two forms of a remote do not always parse alike.  For the
    organization [go-git] and the repository [go-git], a name that does
    not end in [.git], the forms with [.git] give the repository [go-git]
    and the forms without it give [go]: the dot of [(?:.git)?] is the
    wildcard, so the optional suffix takes [-git]. *)
Theorem C3_unescaped_dot_before_git :
  let ORG := js "go-git" in
  let REPO := js "go-git" in
  (ORG <> [] /\ ~ In 47%N ORG /\ REPO <> [] /\
   forall x, REPO <> x ++ js ".git") /\
  parseGithubUrl (Some (js "git@github.com:" ++ ORG ++ js "/" ++ REPO ++ js ".git")) =
  Some {| organization := ORG; repository := REPO |} /\
  parseGithubUrl (Some (js "https://github.com/" ++ ORG ++ js "/" ++ REPO ++ js ".git")) =
  Some {| organization := ORG; repository := REPO |} /\
  parseGithubUrl (Some (js "git@github.com:" ++ ORG ++ js "/" ++ REPO)) =
  Some {| organization := ORG; repository := js "go" |} /\
  parseGithubUrl (Some (js "https://github.com/" ++ ORG ++ js "/" ++ REPO)) =
  Some {| organization := ORG; repository := js "go" |} /\
  js "go" <> REPO.
Proof.
  intros ORG REPO. split.
  - split; [discriminate|]. split; [simpl; intuition discriminate|].
    split; [discriminate|].
    intros x E. apply (f_equal (@rev codeunit)) in E.
    rewrite rev_app_distr in E. discriminate.
  - repeat split; try (vm_compute; reflexivity). discriminate.
Qed.

(** C6: a host that is not [github.com] is taken for it.  The dot of
    [github.com] in the patterns is the wildcard, so [githubxcom] matches;
    [gitlab.com] does not. *)
Theorem C6_wildcard_dot_in_host :
  parseGithubUrl (Some (js "https://githubxcom/a/b")) =
  Some {| organization := js "a"; repository := js "b" |} /\
  parseGithubUrl (Some (js "https://gitlab.com/a/b")) = None.
Proof. split; vm_compute; reflexivity. Qed.

(** ** Repository resolution *)

Lemma chosenUrl_nullish remote :
  Git.fetchUrl remote ?? Git.pushUrl remote = chosenUrl remote.
Proof. reflexivity. Qed.

Lemma firstGithubRemote_first before remote after repositoryName :
  (forall r, In r before -> parseGithubUrl (chosenUrl r) = None) ->
  parseGithubUrl (chosenUrl remote) = Some repositoryName ->
  firstGithubRemote (before ++ remote :: after) = Some repositoryName.
Proof.
  intros Hbefore Hremote. induction before as [|r before IH]; simpl.
  - now rewrite chosenUrl_nullish, Hremote.
  - rewrite chosenUrl_nullish, (Hbefore r) by now left.
    apply IH. intros r' Hr'. apply Hbefore. now right.
Qed.

Lemma firstGithubRemote_none remotes :
  (forall r, In r remotes -> parseGithubUrl (chosenUrl r) = None) ->
  firstGithubRemote remotes = None.
Proof.
  induction remotes as [|r remotes IH]; intros H; simpl; [reflexivity|].
  rewrite chosenUrl_nullish, (H r) by now left.
  apply IH. intros r' Hr'. apply H. now right.
Qed.

(** C5: with the repository of the file found, [getRepositoryInfo] parses
    for each remote its fetch URL when present and otherwise its push URL;
    it returns the name parsed from the first remote whose URL parses,
    with the repository's root and state, whatever stands before that
    remote; and it throws the no-GitHub-remote error when no remote's URL
    parses, which covers the empty list and remotes without URLs. *)
Theorem C5_first_github_remote (host : Host) (git : Git.API)
        (fileUri : vscode.Uri) (found : Git.Repository) :
  Git.getRepository git fileUri = Some found ->
  (forall before remote after repositoryName,
      Git.remotes (Git.state found) = before ++ remote :: after ->
      (forall r, In r before -> parseGithubUrl (chosenUrl r) = None) ->
      parseGithubUrl (chosenUrl remote) = Some repositoryName ->
      getRepositoryInfo host git fileUri =
      Ok {| repositoryName := repositoryName;
            rootUri := Git.rootUri found;
            state := Git.state found |}) /\
  ((forall r, In r (Git.remotes (Git.state found)) ->
              parseGithubUrl (chosenUrl r) = None) ->
   getRepositoryInfo host git fileUri = Throw NoGitHubRemote) /\
  (Git.remotes (Git.state found) = [] ->
   getRepositoryInfo host git fileUri = Throw NoGitHubRemote) /\
  (forall r, Git.fetchUrl r = None -> Git.pushUrl r = None ->
             parseGithubUrl (chosenUrl r) = None).
Proof.
  intros Hfound. unfold getRepositoryInfo. rewrite Hfound. cbn [failIfNull bind].
  split; [|split; [|split]].
  - intros before remote after name Hremotes Hbefore Hremote.
    now rewrite Hremotes, (firstGithubRemote_first _ _ _ _ Hbefore Hremote).
  - intros Hnone. now rewrite (firstGithubRemote_none _ Hnone).
  - intros ->. reflexivity.
  - intros r Hf Hp. unfold chosenUrl. now rewrite Hf, Hp.
Qed.

Lemma C5_first_github_remote_witness :
  let gitlab := Scenario.origin "https://gitlab.com/a/b" in
  let nothing := {| Git.name := js "local"; Git.fetchUrl := None; Git.pushUrl := None |} in
  let pushOnly := {| Git.name := js "mirror"; Git.fetchUrl := None;
                     Git.pushUrl := Some (js "https://github.com/foo/bar.git") |} in
  let later := Scenario.origin "git@github.com:other/one" in
  let found := Scenario.repoAt "/repo" Scenario.abc123
                               [gitlab; nothing; pushOnly; later] [] in
  let bare := Scenario.repoAt "/repo" Scenario.abc123 [gitlab; nothing] [] in
  let file := Scenario.fileAt (js "/repo/src/extension.ts") in
  getRepositoryInfo Scenario.posixHost (Scenario.gitWith found) file =
  Ok {| repositoryName := {| organization := js "foo"; repository := js "bar" |};
        rootUri := Git.rootUri found; state := Git.state found |} /\
  getRepositoryInfo Scenario.posixHost (Scenario.gitWith bare) file =
  Throw NoGitHubRemote.
Proof.
  intros gitlab nothing pushOnly later found bare file. split.
  - refine (proj1 (C5_first_github_remote Scenario.posixHost
                     (Scenario.gitWith found) file found eq_refl)
                  [gitlab; nothing] pushOnly [later] _ eq_refl _ _).
    + intros r [<-|[<-|[]]]; vm_compute; reflexivity.
    + vm_compute; reflexivity.
  - refine (proj1 (proj2 (C5_first_github_remote Scenario.posixHost
                     (Scenario.gitWith bare) file bare eq_refl)) _).
    intros r [<-|[<-|[]]]; vm_compute; reflexivity.
Defined.

(** ** The dirty-file guard *)

Lemma failIfChangedFile_loop_throw changes fileUri :
  (exists change, In change changes /\
                  vscode.path (Git.uri change) = vscode.path fileUri) ->
  failIfChangedFile_loop changes fileUri =
  Throw (FileModified (vscode.path fileUri)).
Proof.
  induction changes as [|c changes IH]; intros (change & Hin & E).
  - destruct Hin.
  - simpl.
    destruct (jsstring_eqb (vscode.path (Git.uri c)) (vscode.path fileUri)) eqn:Ec;
      [reflexivity|].
    apply IH. exists change. split; [|assumption].
    destruct Hin as [->|Hin]; [|assumption].
    apply jsstring_eqb_eq in E. congruence.
Qed.

Lemma failIfChangedFile_loop_ok changes fileUri :
  (forall change, In change changes ->
                  vscode.path (Git.uri change) <> vscode.path fileUri) ->
  failIfChangedFile_loop changes fileUri = Ok tt.
Proof.
  induction changes as [|c changes IH]; intros H; simpl; [reflexivity|].
  destruct (jsstring_eqb (vscode.path (Git.uri c)) (vscode.path fileUri)) eqn:Ec.
  - apply jsstring_eqb_eq in Ec. now apply H in Ec; [|left].
  - apply IH. intros change Hin. apply H. now right.
Qed.

Lemma changed_or_not changes fileUri :
  (exists change, In change changes /\
                  vscode.path (Git.uri change) = vscode.path fileUri) \/
  (forall change, In change changes ->
                  vscode.path (Git.uri change) <> vscode.path fileUri).
Proof.
  induction changes as [|c changes [(change & Hin & E)|IH]].
  - right. intros change [].
  - left. exists change. split; [now right|assumption].
  - destruct (list_eq_dec N.eq_dec (vscode.path (Git.uri c)) (vscode.path fileUri))
      as [E|Hne].
    + left. exists c. split; [now left|assumption].
    + right. intros change [<-|Hin]; [assumption|now apply IH].
Qed.

(** C9: the guard throws exactly when some change has the very path of
    the file, code unit for code unit, and returns otherwise; nothing but
    the two [path] components is read, so a longer or shorter path or one
    in another letter case does not throw, and the same path under another
    scheme or authority does. *)
Theorem C9_guard_compares_paths (repositoryState : Git.RepositoryState)
        (fileUri : vscode.Uri) :
  (failIfChangedFile repositoryState fileUri =
   Throw (FileModified (vscode.path fileUri)) <->
   exists change, In change (Git.workingTreeChanges repositoryState) /\
                  vscode.path (Git.uri change) = vscode.path fileUri) /\
  (failIfChangedFile repositoryState fileUri = Ok tt <->
   forall change, In change (Git.workingTreeChanges repositoryState) ->
                  vscode.path (Git.uri change) <> vscode.path fileUri).
Proof.
  unfold failIfChangedFile.
  destruct (changed_or_not (Git.workingTreeChanges repositoryState) fileUri)
    as [Hyes|Hno].
  - rewrite (failIfChangedFile_loop_throw _ _ Hyes). split.
    + tauto.
    + split; [discriminate|]. intros H. destruct Hyes as (change & Hin & E).
      now apply H in Hin.
  - rewrite (failIfChangedFile_loop_ok _ _ Hno). split.
    + split; [discriminate|]. intros (change & Hin & E). now apply Hno in Hin.
    + tauto.
Qed.

Lemma C9_guard_compares_paths_witness :
  let file := Scenario.fileAt (js "/repo/src/extension.ts") in
  let near :=
      [ {| Git.uri := Scenario.fileAt (js "/repo/src") |};
        {| Git.uri := Scenario.fileAt (js "/repo/src/Extension.ts") |};
        {| Git.uri := Scenario.fileAt (js "/repo/src/extension.tsx") |} ] in
  let elsewhere :=
      {| Git.uri := {| vscode.scheme := js "git"; vscode.authority := js "host";
                       vscode.path := js "/repo/src/extension.ts";
                       vscode.query := js "ref=HEAD"; vscode.fragment := [] |} |} in
  failIfChangedFile
    {| Git.HEAD := None; Git.remotes := []; Git.workingTreeChanges := near |}
    file = Ok tt /\
  failIfChangedFile
    {| Git.HEAD := None; Git.remotes := [];
       Git.workingTreeChanges := near ++ [elsewhere] |}
    file = Throw (FileModified (js "/repo/src/extension.ts")).
Proof.
  intros file near elsewhere. split.
  - apply (proj2 (proj2 (C9_guard_compares_paths
                           {| Git.HEAD := None; Git.remotes := [];
                              Git.workingTreeChanges := near |} file))).
    intros change [<-|[<-|[<-|[]]]]; vm_compute; discriminate.
  - apply (proj2 (proj1 (C9_guard_compares_paths
                           {| Git.HEAD := None; Git.remotes := [];
                              Git.workingTreeChanges := near ++ [elsewhere] |}
                           file))).
    exists elsewhere. split; [|reflexivity]. simpl. tauto.
Defined.

Lemma getRepositoryInfo_with_HEAD host git fileUri info head :
  getRepositoryInfo host git fileUri = Ok info ->
  getRepositoryInfo host (API_with_HEAD head git) fileUri =
  Ok {| repositoryName := repositoryName info; rootUri := rootUri info;
        state := with_HEAD head (state info) |}.
Proof.
  unfold getRepositoryInfo, API_with_HEAD. cbn [Git.getRepository].
  destruct (Git.getRepository git fileUri) as [found|]; [|discriminate].
  cbn [failIfNull bind Git.state Git.rootUri with_HEAD Git.remotes].
  destruct (firstGithubRemote (Git.remotes (Git.state found))); [|discriminate].
  now intros [= <-].
Qed.

(** C4, as the specification states it, fails: a repository without any
    GitHub remote and with the file among its working-tree changes is
    refused for its remotes, before the guard runs. *)
Lemma C4_remotes_are_checked_first :
  let file := "/repo/src/extension.ts"%string in
  let dirty := Scenario.repoAt "/repo" Scenario.abc123 []
                               [{| Git.uri := Scenario.fileAt (js file) |}] in
  getLinkForSelection Scenario.posixHost (Scenario.gitWith dirty)
                      (Scenario.select file 4 4 true) = Throw NoGitHubRemote /\
  NoGitHubRemote <> FileModified (js file).
Proof. split; [vm_compute; reflexivity | vm_compute; discriminate]. Qed.

(** C4, amended: when the repository of the file resolves to a GitHub
    remote and some working-tree change has the path of the file,
    [getLinkForSelection] throws the file-modified error, whose message
    holds the path of the file, and it does so whatever HEAD is: with
    a commit, without one, or absent. *)
Theorem C4_dirty_file_guard (host : Host) (git : Git.API)
        (selection : SelectionInfo) (info : RepositoryInfo) :
  getRepositoryInfo host git (fileUri selection) = Ok info ->
  (exists change, In change (Git.workingTreeChanges (state info)) /\
                  vscode.path (Git.uri change) = vscode.path (fileUri selection)) ->
  let thrown :=
      Throw {| message := js "Can't copy permalink because file "
                             ++ vscode.path (fileUri selection)
                             ++ js " has been modified" |} in
  getLinkForSelection host git selection = thrown /\
  forall head, getLinkForSelection host (API_with_HEAD head git) selection = thrown.
Proof.
  intros Hinfo Hdirty thrown. split.
  - unfold getLinkForSelection. rewrite Hinfo. cbn [bind].
    unfold failIfChangedFile. now rewrite (failIfChangedFile_loop_throw _ _ Hdirty).
  - intros head. unfold getLinkForSelection.
    rewrite (getRepositoryInfo_with_HEAD _ _ _ _ head Hinfo). cbn [bind state].
    unfold failIfChangedFile. cbn [with_HEAD Git.workingTreeChanges].
    now rewrite (failIfChangedFile_loop_throw _ _ Hdirty).
Qed.

Lemma C4_dirty_file_guard_witness :
  let file := "/repo/src/extension.ts"%string in
  let dirty := Scenario.repoAt "/repo" Scenario.abc123
                               [Scenario.origin "git@github.com:foo/bar.git"]
                               [{| Git.uri := Scenario.fileAt (js file) |}] in
  let thrown :=
      Throw {| message :=
                 js "Can't copy permalink because file /repo/src/extension.ts has been modified" |} in
  getLinkForSelection Scenario.posixHost (Scenario.gitWith dirty)
                      (Scenario.select file 4 4 true) = thrown /\
  forall head,
    getLinkForSelection Scenario.posixHost
                        (API_with_HEAD head (Scenario.gitWith dirty))
                        (Scenario.select file 4 4 true) = thrown.
Proof.
  intros file dirty thrown.
  refine (C4_dirty_file_guard Scenario.posixHost (Scenario.gitWith dirty)
            (Scenario.select file 4 4 true)
            {| repositoryName := {| organization := js "foo"; repository := js "bar" |};
               rootUri := Git.rootUri dirty; state := Git.state dirty |} _ _).
  - vm_compute; reflexivity.
  - exists {| Git.uri := Scenario.fileAt (js file) |}. split; [now left|reflexivity].
Defined.

(** ** The commit of HEAD *)

(** C7: with a GitHub remote and a clean file, [getLinkForSelection]
    throws the no-commit error when HEAD is absent or has no commit; and
    [getCommitHash] returns the commit of HEAD, unchanged, when it is
    there. *)
Theorem C7_commit_of_HEAD :
  (forall (host : Host) (git : Git.API) (selection : SelectionInfo)
          (info : RepositoryInfo),
      getRepositoryInfo host git (fileUri selection) = Ok info ->
      failIfChangedFile (state info) (fileUri selection) = Ok tt ->
      Git.HEAD (state info) = None \/
      (exists head, Git.HEAD (state info) = Some head /\ Git.commit head = None) ->
      getLinkForSelection host git selection = Throw NoCommitHash) /\
  (forall (repositoryState : Git.RepositoryState) (head : Git.Branch)
          (sha : jsstring),
      Git.HEAD repositoryState = Some head -> Git.commit head = Some sha ->
      getCommitHash repositoryState = Ok sha).
Proof.
  split.
  - intros host git selection info Hinfo Hclean Hhead.
    unfold getLinkForSelection. rewrite Hinfo. cbn [bind]. rewrite Hclean. cbn [bind].
    unfold getCommitHash.
    destruct Hhead as [-> | (head & -> & ->)]; reflexivity.
  - intros repositoryState head sha Hhead Hcommit.
    unfold getCommitHash. now rewrite Hhead, Hcommit.
Qed.

Lemma C7_commit_of_HEAD_witness :
  let file := "/repo/src/extension.ts"%string in
  let remotes := [Scenario.origin "git@github.com:foo/bar.git"] in
  let unborn := Scenario.repoAt "/repo" (Some {| Git.commit := None |}) remotes [] in
  let headless := Scenario.repoAt "/repo" None remotes [] in
  getLinkForSelection Scenario.posixHost (Scenario.gitWith unborn)
                      (Scenario.select file 4 4 true) = Throw NoCommitHash /\
  getLinkForSelection Scenario.posixHost (Scenario.gitWith headless)
                      (Scenario.select file 4 4 true) = Throw NoCommitHash /\
  getCommitHash (Git.state Scenario.foobar) = Ok (js "abc123").
Proof.
  intros file remotes unborn headless.
  pose (name := {| organization := js "foo"; repository := js "bar" |}).
  split; [|split].
  - refine (proj1 C7_commit_of_HEAD Scenario.posixHost (Scenario.gitWith unborn)
                  (Scenario.select file 4 4 true)
                  {| repositoryName := name; rootUri := Git.rootUri unborn;
                     state := Git.state unborn |} _ _ _).
    + vm_compute; reflexivity.
    + reflexivity.
    + right. exists {| Git.commit := None |}. split; reflexivity.
  - refine (proj1 C7_commit_of_HEAD Scenario.posixHost (Scenario.gitWith headless)
                  (Scenario.select file 4 4 true)
                  {| repositoryName := name; rootUri := Git.rootUri headless;
                     state := Git.state headless |} _ _ _).
    + vm_compute; reflexivity.
    + reflexivity.
    + now left.
  - exact (proj2 C7_commit_of_HEAD (Git.state Scenario.foobar)
                 {| Git.commit := Some (js "abc123") |} (js "abc123")
                 eq_refl eq_refl).
Defined.

(** ** The line anchor *)

(** C10: the anchor follows the [isSingleLine] flag alone: a selection
    that is not flagged gets both lines even when they are the same line,
    and a flagged one gets its first line whatever its last line is; and
    the anchor is the fragment of the URL it is assigned to, as it is. *)
Theorem C10_anchor_follows_flag (url : URL.t) (file : vscode.Uri)
        (first last : N) :
  let several := {| fileUri := file; startLine := first; endLine := last;
                    isSingleLine := false |} in
  let single := {| fileUri := file; startLine := first; endLine := last;
                   isSingleLine := true |} in
  getLineAnchor several =
  js "L" ++ Number_toString (first + 1) ++ js "-L" ++ Number_toString (last + 1) /\
  getLineAnchor single = js "L" ++ Number_toString (first + 1) /\
  URL.fragment (URL.set_hash url (getLineAnchor several)) =
  Some (js "L" ++ Number_toString (first + 1)
           ++ js "-L" ++ Number_toString (last + 1)) /\
  URL.fragment (URL.set_hash url (getLineAnchor single)) =
  Some (js "L" ++ Number_toString (first + 1)) /\
  getLineAnchor {| fileUri := file; startLine := 4; endLine := 4;
                   isSingleLine := false |} = js "L5-L5" /\
  getLineAnchor {| fileUri := file; startLine := 4; endLine := 9;
                   isSingleLine := true |} = js "L5".
Proof.
  intros several single.
  split; [reflexivity|]. split; [reflexivity|].
  rewrite !set_hash_anchor. cbn [URL.fragment].
  repeat split.
Qed.

(** ** The permalink *)

(** C1, as the specification states it, fails twice: the lines 4 to 9 of
    a selection give the anchor [L5-L10], not [L5-L9]; and the [URL] class
    escapes what a URL path cannot hold, so the file [docs/my file.md]
    is linked as [docs/my%20file.md]. *)
Lemma C1_anchor_and_escaping :
  (exists url,
      getLinkForSelection Scenario.posixHost (Scenario.gitWith Scenario.foobar)
                          (Scenario.select "/repo/src/extension.ts" 4 9 false)
      = Ok url /\
      URL.fragment url = Some (js "L5-L10") /\
      URL.fragment url <> Some (js "L5-L9")) /\
  (exists url,
      getLinkForSelection Scenario.posixHost (Scenario.gitWith Scenario.foobar)
                          (Scenario.select "/repo/docs/my file.md" 4 4 true)
      = Ok url /\
      URL.toString url =
      js "https://github.com/foo/bar/blob/abc123/docs/my%20file.md#L5" /\
      URL.toString url <>
      js "https://github.com/foo/bar/blob/abc123/docs/my file.md#L5").
Proof.
  split; eexists; (split; [vm_compute; reflexivity|]);
    (split; [vm_compute; reflexivity | vm_compute; discriminate]).
Qed.

(** C1, amended: for a resolved repository, a clean file and a commit of
    HEAD, when the organization, the repository, the commit and the
    segments of the relative path are plain text for a URL path (no
    character that the path state escapes or splits at, no dot segment),
    the permalink is exactly
    [https://github.com/<org>/<repo>/blob/<hash>/s1/.../sn], then [#] and
    [L<startLine+1>] for a single-line selection or
    [L<startLine+1>-L<endLine+1>] otherwise. *)
Theorem C1_permalink_shape (host : Host) (git : Git.API)
        (selection : SelectionInfo) (info : RepositoryInfo)
        (commitHash : jsstring) (segs : list jsstring) :
  getRepositoryInfo host git (fileUri selection) = Ok info ->
  failIfChangedFile (state info) (fileUri selection) = Ok tt ->
  getCommitHash (state info) = Ok commitHash ->
  split (path_sep (os host))
        (path_relative host (fsPath host (rootUri info))
                       (fsPath host (fileUri selection))) = segs ->
  forallb plainSegment
          (organization info :: repository info :: commitHash :: segs) = true ->
  exists url,
    getLinkForSelection host git selection = Ok url /\
    URL.toString url =
    js "https://github.com/" ++ organization info ++ js "/" ++ repository info
       ++ js "/blob/" ++ commitHash ++ js "/" ++ join (js "/") segs ++ js "#"
       ++ (if isSingleLine selection
           then js "L" ++ Number_toString (startLine selection + 1)
           else js "L" ++ Number_toString (startLine selection + 1)
                   ++ js "-L" ++ Number_toString (endLine selection + 1)).
Proof.
  intros Hinfo Hclean Hcommit Hsplit Hplain.
  exists (assemble host info commitHash selection).
  split; [now apply getLinkForSelection_steps|].
  assert (Hne : segs <> []) by (rewrite <- Hsplit; apply split_nonempty).
  destruct (assemble_interleaved host info commitHash selection segs)
    as [Hpath Hfrag]; try assumption.
  { rewrite Hsplit. apply (Interleaved_join 47%N); [reflexivity|discriminate]. }
  destruct (assemble_origin host info commitHash selection) as [Hs Hh].
  rewrite (toString_assembled _ _ _ Hs Hh Hpath Hfrag).
  rewrite <- !app_assoc. reflexivity.
Qed.

Lemma C1_permalink_shape_witness :
  let single := Scenario.select "/repo/src/extension.ts" 4 4 true in
  let several := Scenario.select "/repo/src/extension.ts" 4 9 false in
  let git := Scenario.gitWith Scenario.foobar in
  (exists url,
      getLinkForSelection Scenario.posixHost git single = Ok url /\
      URL.toString url =
      js "https://github.com/foo/bar/blob/abc123/src/extension.ts#L5") /\
  (exists url,
      getLinkForSelection Scenario.posixHost git several = Ok url /\
      URL.toString url =
      js "https://github.com/foo/bar/blob/abc123/src/extension.ts#L5-L10").
Proof.
  intros single several git.
  pose (info := {| repositoryName := {| organization := js "foo";
                                        repository := js "bar" |};
                   rootUri := Git.rootUri Scenario.foobar;
                   state := Git.state Scenario.foobar |}).
  split.
  - exact (C1_permalink_shape Scenario.posixHost git single info (js "abc123")
             [js "src"; js "extension.ts"]
             eq_refl eq_refl eq_refl eq_refl eq_refl).
  - exact (C1_permalink_shape Scenario.posixHost git several info (js "abc123")
             [js "src"; js "extension.ts"]
             eq_refl eq_refl eq_refl eq_refl eq_refl).
Defined.

(** C8: when the relative path is segments joined with backslashes, the
    permalink has no backslash anywhere, on either platform; and when the
    path tokens are plain text, its path holds the segments joined with
    forward slashes.  On Windows the split at [path.sep] finds the
    segments; elsewhere the [URL] class ends a segment at a backslash. *)
Theorem C8_backslashes_become_slashes (host : Host) (git : Git.API)
        (selection : SelectionInfo) (info : RepositoryInfo)
        (commitHash : jsstring) (segs : list jsstring) :
  getRepositoryInfo host git (fileUri selection) = Ok info ->
  failIfChangedFile (state info) (fileUri selection) = Ok tt ->
  getCommitHash (state info) = Ok commitHash ->
  path_relative host (fsPath host (rootUri info))
                (fsPath host (fileUri selection)) = join [92%N] segs ->
  segs <> [] ->
  exists url,
    getLinkForSelection host git selection = Ok url /\
    ~ In 92%N (URL.toString url) /\
    (forallb plainSegment
             (organization info :: repository info :: commitHash :: segs) = true ->
     URL.pathname url =
     js "/" ++ organization info ++ js "/" ++ repository info ++ js "/blob/"
        ++ commitHash ++ js "/" ++ join (js "/") segs).
Proof.
  intros Hinfo Hclean Hcommit Hrel Hne.
  exists (assemble host info commitHash selection).
  split; [now apply getLinkForSelection_steps|].
  split; [apply assemble_no_backslash|].
  intros Hplain.
  apply (assemble_interleaved host info commitHash selection segs);
    try assumption.
  rewrite Hrel.
  assert (Hsegs : forallb plainSegment segs = true).
  { cbn [forallb] in Hplain. rewrite !andb_true_iff in Hplain. tauto. }
  assert (Hsep : forall c seg, URL.isSeparator c = true -> In seg segs -> ~ In c seg).
  { intros c seg Hc Hin. apply plainSegment_no_separator; [|assumption].
    rewrite forallb_forall in Hsegs. now apply Hsegs. }
  destruct (os host); cbn [path_sep].
  - rewrite split_without.
    + rewrite (join_app (js "/") _ [join [92%N] segs]) by discriminate.
      apply (Interleaved_app _ _ (join [92%N] segs) segs 47%N).
      * apply (Interleaved_join 47%N); [reflexivity|discriminate].
      * now apply Interleaved_join.
      * reflexivity.
    + intros Hin. apply join_in in Hin.
      destruct Hin as [[E|[]]|(seg & Hseg & Hin)]; [discriminate|].
      now apply (Hsep 47%N seg).
  - rewrite split_join; [|assumption|].
    + apply (Interleaved_join 47%N); [reflexivity|discriminate].
    + apply Forall_forall. intros seg Hseg. now apply Hsep.
Qed.

Lemma C8_backslashes_become_slashes_witness :
  (exists url,
      getLinkForSelection Scenario.posixHost (Scenario.gitWith Scenario.foobar)
                          (Scenario.select "/repo/src\extension.ts" 4 4 true)
      = Ok url /\
      ~ In 92%N (URL.toString url) /\
      URL.pathname url = js "/foo/bar/blob/abc123/src/extension.ts") /\
  (exists url,
      getLinkForSelection
        Scenario.win32Host
        (Scenario.gitWith
           (Scenario.repoAt "/c:/repo" Scenario.abc123
                            [Scenario.origin "git@github.com:foo/bar.git"] []))
        (Scenario.select "/c:/repo/src/extension.ts" 4 4 true)
      = Ok url /\
      ~ In 92%N (URL.toString url) /\
      URL.pathname url = js "/foo/bar/blob/abc123/src/extension.ts").
Proof.
  pose (name := {| organization := js "foo"; repository := js "bar" |}).
  assert (Hne : [js "src"; js "extension.ts"] <> []) by discriminate.
  split.
  - destruct (C8_backslashes_become_slashes
                Scenario.posixHost (Scenario.gitWith Scenario.foobar)
                (Scenario.select "/repo/src\extension.ts" 4 4 true)
                {| repositoryName := name;
                   rootUri := Git.rootUri Scenario.foobar;
                   state := Git.state Scenario.foobar |}
                (js "abc123") [js "src"; js "extension.ts"]
                eq_refl eq_refl eq_refl eq_refl Hne)
      as (url & Hurl & Hclean & Hpath).
    exists url. split; [exact Hurl|]. split; [exact Hclean|]. exact (Hpath eq_refl).
  - pose (repo := Scenario.repoAt "/c:/repo" Scenario.abc123
                                   [Scenario.origin "git@github.com:foo/bar.git"] []).
    destruct (C8_backslashes_become_slashes
                Scenario.win32Host (Scenario.gitWith repo)
                (Scenario.select "/c:/repo/src/extension.ts" 4 4 true)
                {| repositoryName := name;
                   rootUri := Git.rootUri repo; state := Git.state repo |}
                (js "abc123") [js "src"; js "extension.ts"]
                eq_refl eq_refl eq_refl eq_refl Hne)
      as (url & Hurl & Hclean & Hpath).
    exists url. split; [exact Hurl|]. split; [exact Hclean|]. exact (Hpath eq_refl).
Defined.

(** * Further properties *)

(** ** The parser *)

(** X1: no string matches both patterns, so the order in which
    [parseGithubUrl] tries them does not show in what it returns. *)
Theorem X1_patterns_exclude_each_other (url : jsstring) :
  (String_match url GITHUB_REMOTE_SSH_REGEX = None \/
   String_match url GITHUB_REMOTE_HTTP_REGEX = None) /\
  String_match url GITHUB_REMOTE_SSH_REGEX
  ?? String_match url GITHUB_REMOTE_HTTP_REGEX =
  String_match url GITHUB_REMOTE_HTTP_REGEX
  ?? String_match url GITHUB_REMOTE_SSH_REGEX.
Proof.
  unfold String_match, nullish.
  destruct (exec GITHUB_REMOTE_SSH_REGEX url) as [a|] eqn:Ea;
    destruct (exec GITHUB_REMOTE_HTTP_REGEX url) as [b|] eqn:Eb; auto.
  exfalso. apply ssh_inv in Ea. apply http_inv in Eb.
  destruct Ea as (p1 & t1 & (d1 & _ & H1) & E1 & _).
  destruct Eb as (p2 & t2 & (d2 & _ & H2) & E2 & _).
  rewrite E1 in E2.
  destruct H1 as [-> | ->]; destruct H2 as [-> | ->]; discriminate.
Qed.

Lemma repo_of_last comp rp :
  repo_of comp rp -> exists y z, comp = y ++ [z] /\ isLineTerminator z = false.
Proof.
  intros (Hrp & Hdot & sfx & -> & [->|(d & _ & ->)] & _).
  - destruct (exists_last Hrp) as (y & z & ->). exists y, z.
    rewrite app_nil_r. split; [reflexivity|].
    rewrite forallb_app in Hdot. apply andb_prop in Hdot. destruct Hdot as [_ Hz].
    simpl in Hz. now destruct (isLineTerminator z).
  - exists (rp ++ d :: js "gi"), 116%N. split; [|reflexivity].
    rewrite <- app_assoc. reflexivity.
Qed.

(** X2: a string that ends in a line terminator is no GitHub remote: the
    dots of the patterns match no line terminator, and [$] matches at the
    very end only. *)
Theorem X2_trailing_line_terminator (s : jsstring) (c : codeunit) :
  isLineTerminator c = true -> parseGithubUrl (Some (s ++ [c])) = None.
Proof.
  intros Hc. destruct (parseGithubUrl (Some (s ++ [c]))) as [r|] eqn:E;
    [|reflexivity].
  apply parse_inv in E. destruct E as (pre & comp & _ & E & _ & _ & Hrepo).
  apply repo_of_last in Hrepo. destruct Hrepo as (y & z & -> & Hz).
  change (47%N :: y ++ [z]) with ((47%N :: y) ++ [z]) in E.
  rewrite !app_assoc in E. apply app_inj_tail in E. destruct E as [_ ->].
  congruence.
Qed.

Lemma X2_trailing_line_terminator_witness :
  isLineTerminator 10%N = true /\
  parseGithubUrl (Some (js "git@github.com:foo/bar.git" ++ [10%N])) = None.
Proof.
  split; [reflexivity|].
  exact (X2_trailing_line_terminator (js "git@github.com:foo/bar.git") 10%N eq_refl).
Defined.

Lemma repo_of_wildcard x d :
  x <> [] -> forallb notLineTerminator x = true -> isLineTerminator d = false ->
  repo_of (x ++ d :: js "git") x.
Proof.
  intros Hx Hdot Hd. split; [assumption|]. split; [exact Hdot|].
  exists (d :: js "git"). split; [reflexivity|]. split.
  - right. exists d. auto.
  - intros p1 p2 _ _ H2 [E|E].
    + destruct p2; [congruence|discriminate].
    + apply dot_git_length in E. rewrite length_app in E.
      destruct p2; [congruence|simpl in E; lia].
Qed.

(** X3: what the patterns accept, dots as written: after any of the four
    prefixes, with any character that is no line terminator where
    [github.com] has its dot, an organization without slash, a slash, a
    repository without line terminator and then any one such character
    and [git], the result is that organization and that repository; the
    last four characters are dropped whatever the fourth from the end is. *)
Theorem X3_any_character_before_git (pre o x : jsstring) (d : codeunit) :
  github_prefix pre ->
  o <> [] -> ~ In 47%N o ->
  x <> [] -> forallb notLineTerminator x = true ->
  isLineTerminator d = false ->
  parseGithubUrl (Some (pre ++ o ++ js "/" ++ x ++ d :: js "git")) =
  Some {| organization := o; repository := x |}.
Proof.
  intros Hpre Ho Hns Hx Hdot Hd.
  exact (parse_intro pre o _ x Hpre Ho Hns (repo_of_wildcard x d Hx Hdot Hd)).
Qed.

Lemma X3_any_character_before_git_witness :
  parseGithubUrl (Some (js "ssh://git@github-com:foo/bar-git")) =
  Some {| organization := js "foo"; repository := js "bar" |}.
Proof.
  assert (Hpre : github_prefix (js "ssh://git@github-com:")).
  { left. exists 45%N. split; [reflexivity|]. now right. }
  assert (Ho : js "foo" <> []) by discriminate.
  assert (Hns : ~ In 47%N (js "foo")) by (simpl; intuition discriminate).
  assert (Hx : js "bar" <> []) by discriminate.
  exact (X3_any_character_before_git (js "ssh://git@github-com:") (js "foo")
           (js "bar") 45%N Hpre Ho Hns Hx eq_refl eq_refl).
Defined.

(** X4: what [parseGithubUrl] returns parses to itself: from the result
    of any successful parse, the HTTPS remote and the SSH remote written
    with [.git] give the same organization and repository again. *)
Theorem X4_result_parses_to_itself (url : jsstring) (r : RepositoryName) :
  parseGithubUrl (Some url) = Some r ->
  parseGithubUrl (Some (js "https://github.com/" ++ organization r ++ js "/"
                           ++ repository r ++ js ".git")) = Some r /\
  parseGithubUrl (Some (js "git@github.com:" ++ organization r ++ js "/"
                           ++ repository r ++ js ".git")) = Some r.
Proof.
  intros H. apply parse_inv in H.
  destruct H as (pre & comp & _ & _ & Ho & Hns & Hrp & Hdot & _).
  pose proof (repo_of_git (repository r) Hrp Hdot) as Hgit.
  destruct r as [o rp]. cbn [organization repository] in *. split.
  - exact (parse_intro _ o _ rp https_literal Ho Hns Hgit).
  - exact (parse_intro _ o _ rp ssh_literal Ho Hns Hgit).
Qed.

Lemma X4_result_parses_to_itself_witness :
  parseGithubUrl (Some (js "ssh://git@github.com:foo/bar/baz")) =
  Some {| organization := js "foo"; repository := js "bar/baz" |} /\
  parseGithubUrl (Some (js "https://github.com/foo/bar/baz.git")) =
  Some {| organization := js "foo"; repository := js "bar/baz" |} /\
  parseGithubUrl (Some (js "git@github.com:foo/bar/baz.git")) =
  Some {| organization := js "foo"; repository := js "bar/baz" |}.
Proof.
  assert (E : parseGithubUrl (Some (js "ssh://git@github.com:foo/bar/baz")) =
              Some {| organization := js "foo"; repository := js "bar/baz" |})
    by (vm_compute; reflexivity).
  split; [exact E|].
  exact (X4_result_parses_to_itself _ _ E).
Defined.

(** ** The remotes *)

(** X5: the push URL of a remote that has a fetch URL is never read:
    without those push URLs the loop over the remotes finds the same
    repository, or none, as with them. *)
Theorem X5_shadowed_push_url (remotes : list Git.Remote) :
  firstGithubRemote (map withoutShadowedPush remotes) = firstGithubRemote remotes.
Proof.
  induction remotes as [|remote remotes IH]; [reflexivity|].
  cbn [map firstGithubRemote]. rewrite IH.
  replace (Git.fetchUrl (withoutShadowedPush remote)
           ?? Git.pushUrl (withoutShadowedPush remote))
    with (Git.fetchUrl remote ?? Git.pushUrl remote); [reflexivity|].
  unfold withoutShadowedPush.
  destruct (Git.fetchUrl remote) eqn:E; cbn; now rewrite ?E.
Qed.

(** ** The outcomes of [getLinkForSelection] *)

(** The decision of [getLinkForSelection] once [fileUri.toString()] has
    returned. *)
Lemma getLinkForSelection_cases (host : Host) (git : Git.API)
        (selection : SelectionInfo) :
  let file := fileUri selection in
  let result := getLinkForSelection host git selection in
  match Git.getRepository git file with
  | None => result = Throw (NoRepositoryFound (Uri_toString host file))
  | Some found =>
    match firstGithubRemote (Git.remotes (Git.state found)) with
    | None => result = Throw NoGitHubRemote
    | Some repositoryName =>
      (changedPath (Git.workingTreeChanges (Git.state found)) (vscode.path file) /\
       result = Throw (FileModified (vscode.path file))) \/
      (~ changedPath (Git.workingTreeChanges (Git.state found)) (vscode.path file) /\
       match headCommit (Git.state found) with
       | None => result = Throw NoCommitHash
       | Some commitHash =>
         result = Ok (assemble host
                               {| repositoryName := repositoryName;
                                  rootUri := Git.rootUri found;
                                  state := Git.state found |}
                               commitHash selection)
       end)
    end
  end.
Proof.
  intros file result. unfold result, getLinkForSelection, getRepositoryInfo.
  fold file. destruct (Git.getRepository git file) as [found|]; [|reflexivity].
  cbn [failIfNull bind].
  destruct (firstGithubRemote (Git.remotes (Git.state found))) as [name|];
    [|reflexivity].
  cbn [bind state rootUri repositoryName]. unfold failIfChangedFile.
  destruct (changed_or_not (Git.workingTreeChanges (Git.state found)) file)
    as [Hyes|Hno].
  - left. split; [exact Hyes|].
    now rewrite (failIfChangedFile_loop_throw _ _ Hyes).
  - right. split.
    + intros (change & Hin & E). now apply (Hno change Hin).
    + rewrite (failIfChangedFile_loop_ok _ _ Hno). cbn [bind].
      unfold getCommitHash, headCommit.
      destruct (Git.HEAD (Git.state found)) as [head|]; [|reflexivity].
      destruct (Git.commit head); reflexivity.
Qed.

(** X6: the decision of [getLinkForSelection], in its order: what
    [fileUri.toString()] throws, whether a repository is found or not;
    else no repository for the file; else no
    remote that parses; else a change with the path of the file; else no
    commit of HEAD; else the assembled URL.  An earlier failure hides
    every later one. *)
Theorem X6_outcomes_in_order (host : Host)
        (toStringThrows : vscode.Uri -> option jsstring)
        (git : Git.API) (selection : SelectionInfo) :
  let file := fileUri selection in
  let result := getLinkForSelection_outcome host toStringThrows git selection in
  match toStringThrows file with
  | Some what => result = Throws (OtherException what)
  | None =>
    match Git.getRepository git file with
    | None =>
      result = Throws (PermalinkException
                         (NoRepositoryFound (Uri_toString host file)))
    | Some found =>
      match firstGithubRemote (Git.remotes (Git.state found)) with
      | None => result = Throws (PermalinkException NoGitHubRemote)
      | Some repositoryName =>
        (changedPath (Git.workingTreeChanges (Git.state found)) (vscode.path file) /\
         result = Throws (PermalinkException (FileModified (vscode.path file)))) \/
        (~ changedPath (Git.workingTreeChanges (Git.state found)) (vscode.path file) /\
         match headCommit (Git.state found) with
         | None => result = Throws (PermalinkException NoCommitHash)
         | Some commitHash =>
           result = Returns (assemble host
                                      {| repositoryName := repositoryName;
                                         rootUri := Git.rootUri found;
                                         state := Git.state found |}
                                      commitHash selection)
         end)
      end
    end
  end.
Proof.
  intros file result. unfold result, getLinkForSelection_outcome. fold file.
  destruct (toStringThrows file) as [what|]; [reflexivity|].
  pose proof (getLinkForSelection_cases host git selection) as H.
  cbv zeta in H. fold file in H.
  destruct (Git.getRepository git file) as [found|]; [|now rewrite H].
  destruct (firstGithubRemote (Git.remotes (Git.state found))) as [name|];
    [|now rewrite H].
  destruct H as [[Hyes ->]|[Hno H]]; [left; now split|right].
  split; [exact Hno|].
  destruct (headCommit (Git.state found)); now rewrite H.
Qed.

Lemma X6_outcomes_in_order_witness :
  let name := js "/repo/" ++ [0xD800%N] ++ js ".ts" in
  let selection := {| fileUri := Scenario.fileAt name; startLine := 0;
                      endLine := 0; isSingleLine := true |} in
  let loneSurrogate := fun u : vscode.Uri =>
      if existsb (fun c => URL.isHighSurrogate c || URL.isLowSurrogate c)
                 (vscode.path u)
      then Some (js "URIError: URI malformed") else None in
  getLinkForSelection_outcome Scenario.posixHost loneSurrogate
                              (Scenario.gitWith Scenario.foobar) selection =
  Throws (OtherException (js "URIError: URI malformed")) /\
  getLinkForSelection_outcome
    Scenario.posixHost loneSurrogate
    (Scenario.gitWith (Scenario.repoAt "/repo" None [] []))
    (Scenario.select "/repo/src/extension.ts" 4 4 true) =
  Throws (PermalinkException NoGitHubRemote).
Proof.
  intros name selection loneSurrogate. split.
  - exact (X6_outcomes_in_order Scenario.posixHost loneSurrogate
             (Scenario.gitWith Scenario.foobar) selection).
  - exact (X6_outcomes_in_order Scenario.posixHost loneSurrogate
             (Scenario.gitWith (Scenario.repoAt "/repo" None [] []))
             (Scenario.select "/repo/src/extension.ts" 4 4 true)).
Defined.

(** X7: the four errors of the resolver have four different messages,
    whatever file they name, so the message shown tells which of them
    happened. *)
Theorem X7_messages_tell_errors_apart (shown file : jsstring) :
  NoRepositoryFound shown <> NoGitHubRemote /\
  NoRepositoryFound shown <> FileModified file /\
  NoRepositoryFound shown <> NoCommitHash /\
  NoGitHubRemote <> FileModified file /\
  NoGitHubRemote <> NoCommitHash /\
  FileModified file <> NoCommitHash.
Proof.
  unfold NoRepositoryFound, NoGitHubRemote, FileModified, NoCommitHash.
  repeat split; intros H; apply (f_equal message) in H; cbn in H; discriminate.
Qed.

(** ** The guard and the changes *)

(** X8: the guard reads the changes as a set of paths: two lists of
    changes with the same paths, in any order, with any repetitions and
    under any schemes, let the same files through and stop the same
    files. *)
Theorem X8_guard_reads_a_set_of_paths (st st' : Git.RepositoryState)
        (file : vscode.Uri) :
  (forall p, changedPath (Git.workingTreeChanges st) p <->
             changedPath (Git.workingTreeChanges st') p) ->
  failIfChangedFile st file = failIfChangedFile st' file.
Proof.
  intros Hsame. unfold failIfChangedFile.
  destruct (changed_or_not (Git.workingTreeChanges st) file) as [Hyes|Hno].
  - rewrite (failIfChangedFile_loop_throw _ _ Hyes).
    apply (Hsame (vscode.path file)) in Hyes.
    now rewrite (failIfChangedFile_loop_throw _ _ Hyes).
  - rewrite (failIfChangedFile_loop_ok _ _ Hno).
    rewrite failIfChangedFile_loop_ok; [reflexivity|].
    intros change Hin E.
    assert (Hc : changedPath (Git.workingTreeChanges st) (vscode.path file)).
    { apply Hsame. exists change. auto. }
    destruct Hc as (c & Hc & Ec). now apply (Hno c Hc).
Qed.

Lemma X8_guard_reads_a_set_of_paths_witness :
  let a := {| Git.uri := Scenario.fileAt (js "/repo/a") |} in
  let b := {| Git.uri := Scenario.fileAt (js "/repo/b") |} in
  let b' := {| Git.uri := {| vscode.scheme := js "git"; vscode.authority := [];
                             vscode.path := js "/repo/b";
                             vscode.query := js "HEAD"; vscode.fragment := [] |} |} in
  let st := {| Git.HEAD := None; Git.remotes := [];
               Git.workingTreeChanges := [a; b] |} in
  let st' := {| Git.HEAD := None; Git.remotes := [];
                Git.workingTreeChanges := [b'; a; b'; a] |} in
  failIfChangedFile st (Scenario.fileAt (js "/repo/b")) =
  failIfChangedFile st' (Scenario.fileAt (js "/repo/b")).
Proof.
  intros a b b' st st'.
  apply (X8_guard_reads_a_set_of_paths st st' (Scenario.fileAt (js "/repo/b"))).
  intros p. split.
  - intros (c & [<-|[<-|[]]] & <-).
    + exists a. split; [simpl; tauto|reflexivity].
    + exists b'. split; [simpl; tauto|reflexivity].
  - intros (c & [<-|[<-|[<-|[<-|[]]]]] & <-).
    + exists b. split; [simpl; tauto|reflexivity].
    + exists a. split; [simpl; tauto|reflexivity].
    + exists b. split; [simpl; tauto|reflexivity].
    + exists a. split; [simpl; tauto|reflexivity].
Defined.

(** ** What the [URL] class lets through *)

Lemma pathChar_spec c :
  pathChar c = true <->
  (0x20 < c /\ c < 0x7F /\ c <> 0x22 /\ c <> 0x23 /\ c <> 0x3C /\ c <> 0x3E /\
   c <> 0x3F /\ c <> 0x5C /\ c <> 0x5E /\ c <> 0x60 /\ c <> 0x7B /\ c <> 0x7D)%N.
Proof.
  unfold pathChar, URL.inPathSet, URL.inQuerySet, URL.inC0ControlSet.
  cbn [existsb].
  rewrite !andb_true_iff, !negb_true_iff, !orb_false_iff, !N.eqb_neq.
  rewrite N.leb_gt, N.ltb_ge. lia.
Qed.

Lemma pathChar_visible c : pathChar c = true -> visible c = true.
Proof.
  rewrite pathChar_spec. unfold visible.
  rewrite !andb_true_iff, negb_true_iff, !N.ltb_lt, N.eqb_neq. lia.
Qed.

Lemma hexDigit_pathChar d : (d < 16)%N -> pathChar (URL.hexDigit d) = true.
Proof.
  intros Hd. apply pathChar_spec. unfold URL.hexDigit.
  destruct (N.ltb_spec d 10); lia.
Qed.

Lemma percentEncode_pathChar c :
  URL.isSeparator c = false ->
  forallb pathChar (URL.percentEncode URL.inPathSet c) = true.
Proof.
  intros Hc. unfold URL.percentEncode.
  destruct (URL.inPathSet c) eqn:Hset.
  - induction (URL.utf8 c) as [|b bytes IH]; [reflexivity|].
    cbn [flat_map]. rewrite forallb_app, IH, andb_true_r.
    unfold URL.percentEncodeByte. cbn [forallb].
    rewrite !hexDigit_pathChar by now apply N.mod_lt. reflexivity.
  - cbn [forallb]. unfold pathChar. rewrite Hset, andb_true_r. cbn [negb andb].
    unfold URL.isSeparator in Hc. apply orb_false_elim in Hc.
    destruct Hc as [_ Hc]. now rewrite Hc.
Qed.

(** The segments that the path state stores keep what holds of the empty
    segment and of every buffer that is no dot segment, when the buffers
    keep what [B] says while they grow. *)
Lemma pathState_invariant (B Q : jsstring -> Prop) :
  B [] -> Q [] ->
  (forall buffer c, B buffer -> URL.isSeparator c = false ->
                    B (buffer ++ URL.percentEncode URL.inPathSet c)) ->
  (forall buffer, B buffer -> URL.isSingleDot buffer = false ->
                  URL.isDoubleDot buffer = false -> Q buffer) ->
  forall input buffer p,
    B buffer -> Forall Q p -> Forall Q (URL.pathState input buffer p).
Proof.
  intros HB HQ Hgrow Hstore.
  assert (Hend : forall atSeparator buffer p,
             B buffer -> Forall Q p ->
             Forall Q (URL.endSegment atSeparator buffer p)).
  { intros atSeparator buffer p Hb Hp. unfold URL.endSegment, URL.shorten.
    destruct (URL.isDoubleDot buffer) eqn:Hdd;
      [|destruct (URL.isSingleDot buffer) eqn:Hsd];
      destruct atSeparator;
      repeat (apply Forall_app; split);
      auto using removelast_Forall. }
  induction input as [|c rest IH]; intros buffer p Hb Hp; simpl.
  - now apply Hend.
  - destruct (URL.isSeparator c) eqn:Hc.
    + apply IH; [assumption|now apply Hend].
    + apply IH; [now apply Hgrow|assumption].
Qed.

Lemma pathState_nonempty input buffer p : URL.pathState input buffer p <> [].
Proof.
  revert buffer p. induction input as [|c rest IH]; intros buffer p; simpl.
  - unfold URL.endSegment.
    destruct (URL.isDoubleDot buffer); [|destruct (URL.isSingleDot buffer)];
      intros E; apply app_eq_nil in E; destruct E; discriminate.
  - destruct (URL.isSeparator c); apply IH.
Qed.

Lemma set_pathname_segments url value :
  URL.path (URL.set_pathname url value) <> [] /\
  Forall (fun seg => forallb pathChar seg = true)
         (URL.path (URL.set_pathname url value)) /\
  Forall (fun seg => notDotSegment seg = true)
         (URL.path (URL.set_pathname url value)).
Proof.
  unfold URL.set_pathname, URL.pathStartState. cbn [URL.path].
  assert (Hchars : forall input buffer p,
             forallb pathChar buffer = true ->
             Forall (fun seg => forallb pathChar seg = true) p ->
             Forall (fun seg => forallb pathChar seg = true)
                    (URL.pathState input buffer p)).
  { apply pathState_invariant; auto.
    intros buffer c Hb Hc. now rewrite forallb_app, Hb, percentEncode_pathChar. }
  assert (Hdots : forall input buffer p,
             True -> Forall (fun seg => notDotSegment seg = true) p ->
             Forall (fun seg => notDotSegment seg = true)
                    (URL.pathState input buffer p)).
  { apply (pathState_invariant (fun _ => True)); auto.
    intros buffer _ Hs Hd. unfold notDotSegment. now rewrite Hs, Hd. }
  destruct (URL.removeTabNewline (URL.toUSV value)) as [|c rest];
    [|destruct (URL.isSeparator c)];
    (split; [apply pathState_nonempty|split; [apply Hchars|apply Hdots]]); auto.
Qed.

Lemma pathname_chars segs :
  Forall (fun seg => forallb pathChar seg = true) segs ->
  forallb pathChar (flat_map (fun segment => 47%N :: segment) segs) = true.
Proof.
  induction 1 as [|seg segs Hseg _ IH]; [reflexivity|].
  cbn [flat_map app forallb]. rewrite forallb_app.
  apply andb_true_intro. split; [reflexivity|].
  apply andb_true_intro. split; assumption.
Qed.

Lemma anchorChar_visible c : anchorChar c = true -> visible c = true.
Proof.
  unfold anchorChar, isDigit, visible.
  rewrite !orb_true_iff, !andb_true_iff, negb_true_iff, !N.eqb_eq, N.eqb_neq.
  rewrite !N.leb_le, !N.ltb_lt. lia.
Qed.

(** The text of an assembled URL. *)
Lemma pathChar_pathText c : pathChar c = true -> pathText c = true.
Proof.
  rewrite pathChar_spec. unfold pathText, visible. cbn [existsb].
  rewrite !andb_true_iff, !negb_true_iff, !orb_false_iff, !N.ltb_lt, !N.eqb_neq.
  lia.
Qed.

Lemma assemble_text host info commitHash selection :
  let url := assemble host info commitHash selection in
  URL.toString url =
  js "https://github.com" ++ URL.pathname url ++ js "#" ++ getLineAnchor selection /\
  (exists rest, URL.pathname url = js "/" ++ rest) /\
  forallb pathText (URL.pathname url) = true /\
  forallb visible (URL.toString url) = true.
Proof.
  intros url. unfold url.
  destruct (assemble_origin host info commitHash selection) as [Hs Hh].
  assert (Hfrag : URL.fragment (assemble host info commitHash selection) =
                  Some (getLineAnchor selection)).
  { unfold assemble. now rewrite set_hash_anchor. }
  pose proof (toString_assembled _ _ _ Hs Hh eq_refl Hfrag) as Hstr.
  assert (Hpath : URL.path (assemble host info commitHash selection) <> [] /\
                  Forall (fun seg => forallb pathChar seg = true)
                         (URL.path (assemble host info commitHash selection))).
  { unfold assemble. rewrite set_hash_anchor. cbn [URL.path].
    destruct (set_pathname_segments URL.github
      (js "/" ++ join (js "/")
          ([organization info; repository info; js "blob"; commitHash]
             ++ split (path_sep (os host))
                      (path_relative host (fsPath host (rootUri info))
                                     (fsPath host (fileUri selection))))))
      as (Hne & Hc & _).
    split; assumption. }
  destruct Hpath as [Hne Hsegs].
  pose proof (pathname_chars _ Hsegs) as Hchars.
  fold (URL.pathname (assemble host info commitHash selection)) in Hchars.
  split; [exact Hstr|]. split.
  { unfold URL.pathname.
    destruct (URL.path (assemble host info commitHash selection)) as [|seg segs];
      [congruence|]. cbn [flat_map]. eexists. reflexivity. }
  split.
  { rewrite forallb_forall in *. intros c Hc. now apply pathChar_pathText, Hchars. }
  rewrite Hstr, !forallb_app. rewrite !andb_true_iff.
  split; [reflexivity|]. split; [|split; [reflexivity|]].
  - rewrite forallb_forall in *. intros c Hc. now apply pathChar_visible, Hchars.
  - destruct (getLineAnchor_chars selection) as (_ & _ & Ha).
    rewrite forallb_forall in *. intros c Hc. now apply anchorChar_visible, Ha.
Qed.

(** X9: every permalink is [https://github.com], a path that starts with
    a slash and holds only visible ASCII other than the double quote,
    [#], [<], [>], [?], the backslash, the backquote, [{] and [}] (so no
    space and nothing outside ASCII either), then [#] and the line
    anchor; the whole is visible ASCII.  Nothing in the name of a file, a
    repository or a commit can end the path early. *)
Theorem X9_permalink_characters (host : Host) (git : Git.API)
        (selection : SelectionInfo) (url : URL.t) :
  getLinkForSelection host git selection = Ok url ->
  URL.toString url =
  js "https://github.com" ++ URL.pathname url ++ js "#" ++ getLineAnchor selection /\
  (exists rest, URL.pathname url = js "/" ++ rest) /\
  forallb pathText (URL.pathname url) = true /\
  ~ In 35%N (URL.pathname url) /\ ~ In 63%N (URL.pathname url) /\
  forallb visible (URL.toString url) = true.
Proof.
  intros H. apply getLinkForSelection_Ok in H.
  destruct H as (info & commitHash & _ & _ & _ & ->).
  destruct (assemble_text host info commitHash selection)
    as (Hstr & Hslash & Hchars & Hvisible).
  assert (Hnot : forall c, pathText c = false ->
                           ~ In c (URL.pathname (assemble host info commitHash selection))).
  { intros c Hc Hin. rewrite forallb_forall in Hchars.
    apply Hchars in Hin. congruence. }
  repeat split; try assumption; now apply Hnot.
Qed.

Lemma X9_permalink_characters_witness :
  let selection := Scenario.select "/repo/docs/my file#1?.md" 4 4 true in
  exists url,
    getLinkForSelection Scenario.posixHost (Scenario.gitWith Scenario.foobar)
                        selection = Ok url /\
    URL.toString url =
    js "https://github.com" ++ URL.pathname url ++ js "#" ++ js "L5" /\
    (exists rest, URL.pathname url = js "/" ++ rest) /\
    forallb pathText (URL.pathname url) = true /\
    ~ In 35%N (URL.pathname url) /\ ~ In 63%N (URL.pathname url) /\
    forallb visible (URL.toString url) = true.
Proof.
  intros selection.
  pose (info := {| repositoryName := {| organization := js "foo";
                                        repository := js "bar" |};
                   rootUri := Git.rootUri Scenario.foobar;
                   state := Git.state Scenario.foobar |}).
  exists (assemble Scenario.posixHost info (js "abc123") selection).
  split; [reflexivity|].
  exact (X9_permalink_characters Scenario.posixHost
           (Scenario.gitWith Scenario.foobar) selection _ eq_refl).
Defined.

(** X10: the path of a permalink has no dot segment: the [URL] class
    resolves [.] and [..] (and their [%2e] spellings) among the path tokens
    instead of storing them. *)
Theorem X10_no_dot_segment (host : Host) (git : Git.API)
        (selection : SelectionInfo) (url : URL.t) :
  getLinkForSelection host git selection = Ok url ->
  forallb notDotSegment (URL.path url) = true.
Proof.
  intros H. apply getLinkForSelection_Ok in H.
  destruct H as (info & commitHash & _ & _ & _ & ->).
  unfold assemble. rewrite set_hash_anchor. cbn [URL.path].
  apply forallb_forall. apply Forall_forall.
  apply set_pathname_segments.
Qed.

Lemma X10_no_dot_segment_witness :
  let dots := Scenario.repoAt "/repo" Scenario.abc123
                              [Scenario.origin "git@github.com:foo/.."] [] in
  let selection := Scenario.select "/repo/src/extension.ts" 4 4 true in
  exists url,
    getLinkForSelection Scenario.posixHost (Scenario.gitWith dots) selection
    = Ok url /\
    URL.path url = [js "blob"; js "abc123"; js "src"; js "extension.ts"] /\
    forallb notDotSegment (URL.path url) = true.
Proof.
  intros dots selection.
  pose (info := {| repositoryName := {| organization := js "foo";
                                        repository := js ".." |};
                   rootUri := Git.rootUri dots; state := Git.state dots |}).
  exists (assemble Scenario.posixHost info (js "abc123") selection).
  split; [reflexivity|]. split; [reflexivity|].
  exact (X10_no_dot_segment Scenario.posixHost (Scenario.gitWith dots)
                            selection _ eq_refl).
Defined.

(** ** The platform *)

Lemma join_cons_head sep c t ts :
  join sep ((c :: t) :: ts) = c :: join sep (t :: ts).
Proof. destruct ts; reflexivity. Qed.

(** Splitting at one character and joining with another replaces the
    one by the other. *)
Lemma join_split a b s :
  join [b] (split a s) = map (fun c => if (c =? a)%N then b else c) s.
Proof.
  induction s as [|c s IH]; [reflexivity|]. cbn [split map].
  destruct (c =? a)%N.
  - rewrite <- IH. pose proof (split_nonempty a s) as Hne.
    destruct (split a s); [congruence|reflexivity].
  - pose proof (split_nonempty a s) as Hne.
    destruct (split a s) as [|t ts]; [congruence|].
    rewrite join_cons_head. f_equal. exact IH.
Qed.

Lemma slashed_idempotent c : slashed (slashed c) = slashed c.
Proof. unfold slashed. destruct (N.eqb_spec c 92); [reflexivity|]. 
  destruct (N.eqb_spec c 92); congruence. Qed.

Lemma slashed_ordinary c :
  slashed c = c \/ (c = 92%N /\ slashed c = 47%N).
Proof. unfold slashed. destruct (N.eqb_spec c 92); auto. Qed.

Lemma toUSV_ordinary (c : codeunit) (s : list codeunit) :
  URL.isHighSurrogate c = false -> URL.isLowSurrogate c = false ->
  URL.toUSV (c :: s) = c :: URL.toUSV s.
Proof. intros Hh Hl. cbn [URL.toUSV]. now rewrite Hh, Hl. Qed.

Lemma toUSV_pair (c d : codeunit) (s : list codeunit) :
  URL.isHighSurrogate c = true -> URL.isLowSurrogate d = true ->
  URL.toUSV (c :: d :: s) =
  (0x10000 + (c - 0xD800) * 0x400 + (d - 0xDC00))%N :: URL.toUSV s.
Proof. intros Hh Hl. cbn [URL.toUSV]. now rewrite Hh, Hl. Qed.

Lemma toUSV_lone_high (c : codeunit) (s : list codeunit) :
  URL.isHighSurrogate c = true ->
  match s with d :: _ => URL.isLowSurrogate d = false | [] => True end ->
  URL.toUSV (c :: s) = 0xFFFD%N :: URL.toUSV s.
Proof.
  intros Hh Hs. destruct s as [|d s]; cbn [URL.toUSV]; rewrite Hh;
    [reflexivity|]. now rewrite Hs.
Qed.

Lemma toUSV_lone_low (c : codeunit) (s : list codeunit) :
  URL.isHighSurrogate c = false -> URL.isLowSurrogate c = true ->
  URL.toUSV (c :: s) = 0xFFFD%N :: URL.toUSV s.
Proof. intros Hh Hl. cbn [URL.toUSV]. now rewrite Hh, Hl. Qed.

Lemma toUSV_slashed s :
  URL.toUSV (map slashed s) = map slashed (URL.toUSV s).
Proof.
  remember (length s) as n eqn:Hn.
  assert (Hle : length s <= n) by lia. clear Hn. revert s Hle.
  induction n as [|n IH]; intros [|c s] Hle; try reflexivity;
    [simpl in Hle; lia|].
  simpl in Hle. cbn [map].
  destruct (slashed_ordinary c) as [Ec|[-> Ec]]; rewrite Ec.
  2:{ rewrite !toUSV_ordinary by reflexivity. cbn [map].
      change (slashed 92%N) with 47%N. now rewrite IH by lia. }
  destruct (URL.isHighSurrogate c) eqn:Hh.
  - destruct s as [|d s].
    + rewrite !toUSV_lone_high by (assumption || exact I). reflexivity.
    + cbn [map]. destruct (URL.isLowSurrogate d) eqn:Hl.
      * destruct (slashed_ordinary d) as [Ed|[-> Ed]]; [|discriminate].
        rewrite Ed, !toUSV_pair by assumption. cbn [map].
        rewrite IH by (simpl in Hle; lia). f_equal.
        unfold slashed.
        destruct (N.eqb_spec (0x10000 + (c - 0xD800) * 0x400 + (d - 0xDC00)) 92);
          [lia|reflexivity].
      * assert (Hl' : URL.isLowSurrogate (slashed d) = false).
        { destruct (slashed_ordinary d) as [Ed|[_ Ed]]; rewrite Ed;
            [assumption|reflexivity]. }
        rewrite toUSV_lone_high by assumption.
        transitivity (map slashed (0xFFFD%N :: URL.toUSV (d :: s)));
          [|f_equal; symmetry; now apply toUSV_lone_high].
        cbn [map]. change (slashed 0xFFFD%N) with 0xFFFD%N. f_equal.
        change (slashed d :: map slashed s) with (map slashed (d :: s)).
        apply IH. simpl in *. lia.
  - destruct (URL.isLowSurrogate c) eqn:Hl.
    + rewrite !toUSV_lone_low by assumption. cbn [map].
      change (slashed 0xFFFD%N) with 0xFFFD%N. now rewrite IH by lia.
    + rewrite !toUSV_ordinary by assumption. cbn [map].
      now rewrite Ec, IH by lia.
Qed.

Lemma removeTabNewline_slashed s :
  URL.removeTabNewline (map slashed s) = map slashed (URL.removeTabNewline s).
Proof.
  unfold URL.removeTabNewline. induction s as [|c s IH]; [reflexivity|].
  cbn [map filter]. rewrite IH.
  destruct (slashed_ordinary c) as [Ec|[-> Ec]]; rewrite Ec.
  - destruct (negb _); [cbn [map]; now rewrite Ec|reflexivity].
  - reflexivity.
Qed.

Lemma pathState_slashed input buffer p :
  URL.pathState (map slashed input) buffer p = URL.pathState input buffer p.
Proof.
  revert buffer p. induction input as [|c rest IH]; intros buffer p;
    [reflexivity|].
  cbn [map URL.pathState].
  destruct (slashed_ordinary c) as [Ec|[-> Ec]]; rewrite Ec.
  - destruct (URL.isSeparator c); apply IH.
  - cbn. apply IH.
Qed.

Lemma set_pathname_slashed url value :
  URL.set_pathname url (map slashed value) = URL.set_pathname url value.
Proof.
  unfold URL.set_pathname. f_equal.
  rewrite toUSV_slashed, removeTabNewline_slashed.
  unfold URL.pathStartState.
  destruct (URL.removeTabNewline (URL.toUSV value)) as [|c rest]; [reflexivity|].
  cbn [map]. destruct (slashed_ordinary c) as [Ec|[-> Ec]]; rewrite Ec.
  - destruct (URL.isSeparator c).
    + apply pathState_slashed.
    + rewrite <- Ec at 1. apply (pathState_slashed (c :: rest)).
  - cbn. apply pathState_slashed.
Qed.

Lemma pathname_input_slashed o tokens relativePath :
  tokens <> [] ->
  map slashed (js "/" ++ join (js "/") (tokens ++ split (path_sep o) relativePath)) =
  map slashed (js "/" ++ join (js "/") tokens ++ js "/" ++ relativePath).
Proof.
  intros Hne.
  rewrite (join_app (js "/") tokens _ Hne (split_nonempty _ _)).
  change (js "/") with [47%N]. rewrite join_split.
  rewrite !map_app. do 3 f_equal.
  rewrite map_map. apply map_ext. intros c.
  destruct o; cbn [path_sep]; unfold slashed.
  - destruct (N.eqb_spec c 47) as [->|]; reflexivity.
  - destruct (N.eqb_spec c 92) as [->|]; [reflexivity|].
    destruct (N.eqb_spec c 92); congruence.
Qed.

Lemma getLinkForSelection_eq host git selection :
  getLinkForSelection host git selection =
  bind (getRepositoryInfo host git (fileUri selection)) (fun info =>
  bind (failIfChangedFile (state info) (fileUri selection)) (fun _ =>
  bind (getCommitHash (state info)) (fun commitHash =>
  Ok (assemble host info commitHash selection)))).
Proof. reflexivity. Qed.

(** X11: the platform does not show in the result: with the same
    [path.relative], [fsPath] and [toString], [getLinkForSelection] returns
    the same URL or throws the same error whether [path.sep] is the slash
    or the backslash, for every file name.  The split at [path.sep] and
    the join with slashes replace at most backslashes by slashes, and the
    [URL] class reads a backslash in a path as a slash. *)
Theorem X11_platform_does_not_show (host : Host) (git : Git.API)
        (selection : SelectionInfo) (o1 o2 : platform) :
  getLinkForSelection (with_os o1 host) git selection =
  getLinkForSelection (with_os o2 host) git selection.
Proof.
  rewrite !getLinkForSelection_eq.
  change (getRepositoryInfo (with_os o1 host) git (fileUri selection))
    with (getRepositoryInfo host git (fileUri selection)).
  change (getRepositoryInfo (with_os o2 host) git (fileUri selection))
    with (getRepositoryInfo host git (fileUri selection)).
  destruct (getRepositoryInfo host git (fileUri selection)) as [info|];
    [|reflexivity].
  cbn [bind].
  destruct (failIfChangedFile (state info) (fileUri selection)); [|reflexivity].
  cbn [bind]. destruct (getCommitHash (state info)) as [commitHash|];
    [|reflexivity].
  cbn [bind]. f_equal. unfold assemble. f_equal.
  cbn [with_os os path_relative fsPath].
  rewrite <- (set_pathname_slashed URL.github (js "/" ++ join _ (_ ++ split (path_sep o1) _))).
  rewrite <- (set_pathname_slashed URL.github (js "/" ++ join _ (_ ++ split (path_sep o2) _))).
  now rewrite !pathname_input_slashed by discriminate.
Qed.

(** ** The line anchor, read back *)

Lemma js_injective a b : js a = js b -> a = b.
Proof.
  unfold js. intros H.
  rewrite <- (string_of_list_ascii_of_string a), <- (string_of_list_ascii_of_string b).
  f_equal. revert H. generalize (list_ascii_of_string a) (list_ascii_of_string b).
  induction l as [|x l IH]; intros [|y l']; try discriminate; [reflexivity|].
  cbn [map]. intros [= Hxy Hl]. f_equal; [|now apply IH].
  rewrite <- (ascii_N_embedding x), <- (ascii_N_embedding y). now rewrite Hxy.
Qed.

Lemma Number_toString_injective a b :
  Number_toString a = Number_toString b -> a = b.
Proof.
  unfold Number_toString. intros H. apply js_injective in H.
  apply DecimalN.Unsigned.to_uint_inj.
  pose proof (NilEmpty.usu (N.to_uint a)) as Ha.
  rewrite H, NilEmpty.usu in Ha. now injection Ha.
Qed.

Lemma digits_until (a b r r' : jsstring) (x : codeunit) :
  forallb isDigit a = true -> forallb isDigit b = true -> isDigit x = false ->
  a ++ x :: r = b ++ x :: r' -> a = b /\ r = r'.
Proof.
  intros Ha Hb Hx. revert b Hb.
  induction a as [|c a IH]; intros [|e b] Hb E; simpl in *.
  - injection E as ->. auto.
  - injection E as -> _. apply andb_prop in Hb. destruct Hb. congruence.
  - injection E as -> _. apply andb_prop in Ha. destruct Ha. congruence.
  - injection E as -> E. apply andb_prop in Ha. apply andb_prop in Hb.
    destruct Ha as [_ Ha]. destruct Hb as [_ Hb].
    destruct (IH Ha b Hb E) as [-> ->]. auto.
Qed.

Lemma digits_without (a b r : jsstring) (x : codeunit) :
  forallb isDigit a = true -> isDigit x = false -> a <> b ++ x :: r.
Proof.
  intros Ha Hx ->. rewrite forallb_app in Ha. apply andb_prop in Ha.
  destruct Ha as [_ Ha]. simpl in Ha. rewrite Hx in Ha. discriminate.
Qed.

(** X12: the anchor tells the selection: two selections with the same
    anchor have the same flag and the same first line, and the same last
    line when they are not flagged single-line. *)
Theorem X12_anchor_tells_the_lines (s1 s2 : SelectionInfo) :
  getLineAnchor s1 = getLineAnchor s2 ->
  isSingleLine s1 = isSingleLine s2 /\
  startLine s1 = startLine s2 /\
  (isSingleLine s1 = false -> endLine s1 = endLine s2).
Proof.
  unfold getLineAnchor.
  pose proof (Number_toString_digits (startLine s1 + 1)) as D1.
  pose proof (Number_toString_digits (startLine s2 + 1)) as D2.
  destruct (isSingleLine s1), (isSingleLine s2); intros E; injection E as E.
  - apply Number_toString_injective in E. split; [reflexivity|].
    split; [lia|discriminate].
  - exfalso. now apply (digits_without _ _ _ 45%N D1 eq_refl) in E.
  - exfalso. symmetry in E. now apply (digits_without _ _ _ 45%N D2 eq_refl) in E.
  - apply (digits_until _ _ _ _ 45%N D1 D2 eq_refl) in E. destruct E as [E1 E2].
    injection E2 as E2.
    apply Number_toString_injective in E1, E2.
    split; [reflexivity|]. split; [lia|]. intros _. lia.
Qed.

Lemma X12_anchor_tells_the_lines_witness :
  let file := Scenario.fileAt (js "/repo/src/extension.ts") in
  let s1 := {| fileUri := file; startLine := 4; endLine := 9;
               isSingleLine := false |} in
  let s2 := {| fileUri := Scenario.fileAt (js "/repo/README.md");
               startLine := 4; endLine := 9; isSingleLine := false |} in
  getLineAnchor s1 = getLineAnchor s2 /\
  isSingleLine s1 = isSingleLine s2 /\ startLine s1 = startLine s2 /\
  (isSingleLine s1 = false -> endLine s1 = endLine s2).
Proof.
  intros file s1 s2. split; [reflexivity|].
  exact (X12_anchor_tells_the_lines s1 s2 eq_refl).
Defined.

(** ** The command *)

Lemma linkOfWindow_returns host w link :
  linkOfWindow host w = Returns link ->
  exists git selection, getLinkForSelection host git selection = Ok link.
Proof.
  unfold linkOfWindow, getGitOrElse, getSelectionInfo.
  destruct (gitExports w) as [gitExtension|]; [|discriminate].
  cbn [failIfUndefined ofResult andThen].
  destruct (getAPI gitExtension 1) as [git|]; [|discriminate].
  cbn [andThen].
  destruct (activeTextEditor w) as [editor|]; [|discriminate].
  cbn [failIfUndefined ofResult andThen].
  destruct (Uri_parse w _) as [uri|]; [|discriminate].
  cbn [andThen]. unfold getLinkForSelection_outcome. cbn [fileUri].
  destruct (Uri_toString_throws w uri); [discriminate|].
  match goal with
  | |- ofResult (getLinkForSelection host git ?s) = _ -> _ =>
    destruct (getLinkForSelection host git s) as [url|] eqn:E;
      [|discriminate]; intros [= <-]; now exists git, s
  end.
Qed.

(** X13: what a run of the command does.  It shows exactly one message.
    It writes to the clipboard at most once, before the message, and only
    the text of a permalink that [getLinkForSelection] returned; the
    information message appears exactly when that write was fulfilled,
    and a rejected write is reported with its reason.  When the resolver,
    the missing Git extension or the missing editor throws a
    [GetPermalinkError], its message is all that is shown. *)
Theorem X13_effects_of_a_run (host : Host) (w : Window) (effects : list Effect) :
  getPermalink host w = Finished effects ->
  (exists err, linkOfWindow host w = Throws (PermalinkException err) /\
               effects = [showErrorMessage (message err)]) \/
  (exists git selection link,
      getLinkForSelection host git selection = Ok link /\
      linkOfWindow host w = Returns link /\
      ((clipboard_writeText w (URL.toString link) = None /\
        effects = [clipboardWrite (URL.toString link);
                   showInformationMessage (js "Copied GitHub link to clipboard")]) \/
       (exists failed,
           clipboard_writeText w (URL.toString link) = Some failed /\
           effects = [clipboardWrite (URL.toString link);
                      showErrorMessage (js "Failed copying: " ++ failed)]))).
Proof.
  unfold getPermalink.
  destruct (linkOfWindow host w) as [link|[err|what]] eqn:E; [| |discriminate].
  - intros [= <-]. right.
    destruct (linkOfWindow_returns _ _ _ E) as (git & selection & Hlink).
    exists git, selection, link. split; [assumption|]. split; [reflexivity|].
    destruct (clipboard_writeText w (URL.toString link)) as [failed|];
      [right; exists failed|left]; auto.
  - intros [= <-]. left. exists err. auto.
Qed.

Lemma X13_effects_of_a_run_witness :
  let editor :=
      {| Editor.document := {| Editor.fileName := js "/repo/src/extension.ts" |};
         Editor.selection :=
           {| Editor.start := {| Editor.line := 4; Editor.character := 2 |};
              Editor.end_ := {| Editor.line := 9; Editor.character := 0 |};
              Editor.isSingleLine := false |} |} in
  let w := {| gitExports :=
                Some {| getAPI := fun _ =>
                          Returns (Scenario.gitWith Scenario.foobar) |};
              activeTextEditor := Some editor;
              Uri_parse := fun name => Returns (Scenario.fileAt name);
              Uri_toString_throws := fun _ => None;
              clipboard_writeText := fun _ => None |} in
  let text := js "https://github.com/foo/bar/blob/abc123/src/extension.ts#L5-L10" in
  getPermalink Scenario.posixHost w =
  Finished [clipboardWrite text;
            showInformationMessage (js "Copied GitHub link to clipboard")] /\
  exists git selection link,
    getLinkForSelection Scenario.posixHost git selection = Ok link /\
    URL.toString link = text.
Proof.
  intros editor w text.
  assert (E : getPermalink Scenario.posixHost w =
              Finished [clipboardWrite text;
                        showInformationMessage (js "Copied GitHub link to clipboard")])
    by (vm_compute; reflexivity).
  split; [exact E|].
  destruct (X13_effects_of_a_run Scenario.posixHost w _ E)
    as [(err & _ & Herr)|(git & selection & link & Hlink & _ & Hcases)].
  - discriminate.
  - exists git, selection, link. split; [exact Hlink|].
    destruct Hcases as [[_ Heff]|(failed & _ & Heff)]; now injection Heff.
Defined.


(** X14: whatever the window holds, a text that the command writes to
    the clipboard starts with [https://github.com/] and is visible ASCII
    without backslash; and the run that wrote it showed one message. *)
Theorem X14_clipboard_holds_a_link (host : Host) (w : Window)
        (effects : list Effect) (text : jsstring) :
  getPermalink host w = Finished effects ->
  In (clipboardWrite text) effects ->
  (exists rest, text = js "https://github.com/" ++ rest) /\
  forallb visible text = true /\
  length (filter isNotification effects) = 1.
Proof.
  unfold getPermalink.
  destruct (linkOfWindow host w) as [link|[err|what]] eqn:E; [| |discriminate].
  - intros [= <-] Hin.
    assert (Htext : text = URL.toString link /\
                    length (filter isNotification
                       (clipboardWrite (URL.toString link)
                        :: match clipboard_writeText w (URL.toString link) with
                           | None => [showInformationMessage
                                        (js "Copied GitHub link to clipboard")]
                           | Some failed =>
                             [showErrorMessage (js "Failed copying: " ++ failed)]
                           end)) = 1).
    { destruct (clipboard_writeText w (URL.toString link));
        (destruct Hin as [Hin|[Hin|[]]]; [|discriminate]);
        injection Hin as <-; split; reflexivity. }
    destruct Htext as [-> Hone].
    apply linkOfWindow_returns in E. destruct E as (git & selection & Hlink).
    apply getLinkForSelection_Ok in Hlink.
    destruct Hlink as (info & commitHash & _ & _ & _ & ->).
    destruct (assemble_text host info commitHash selection)
      as (Hstr & (rest & Hrest) & _ & Hvisible).
    split; [|split; assumption].
    exists (rest ++ js "#" ++ getLineAnchor selection).
    rewrite Hstr, Hrest. rewrite <- !app_assoc. reflexivity.
  - intros [= <-] [Hin|[]]. discriminate.
Qed.

Lemma X14_clipboard_holds_a_link_witness :
  let editor :=
      {| Editor.document := {| Editor.fileName := js "/repo/docs/my file.md" |};
         Editor.selection :=
           {| Editor.start := {| Editor.line := 0; Editor.character := 0 |};
              Editor.end_ := {| Editor.line := 0; Editor.character := 7 |};
              Editor.isSingleLine := true |} |} in
  let w := {| gitExports :=
                Some {| getAPI := fun _ =>
                          Returns (Scenario.gitWith Scenario.foobar) |};
              activeTextEditor := Some editor;
              Uri_parse := fun name => Returns (Scenario.fileAt name);
              Uri_toString_throws := fun _ => None;
              clipboard_writeText := fun _ => Some (js "denied") |} in
  let text := js "https://github.com/foo/bar/blob/abc123/docs/my%20file.md#L1" in
  let effects := [clipboardWrite text;
                  showErrorMessage (js "Failed copying: denied")] in
  getPermalink Scenario.posixHost w = Finished effects /\
  (exists rest, text = js "https://github.com/" ++ rest) /\
  forallb visible text = true /\
  length (filter isNotification effects) = 1.
Proof.
  intros editor w text effects.
  assert (E : getPermalink Scenario.posixHost w = Finished effects)
    by (vm_compute; reflexivity).
  split; [exact E|].
  apply (X14_clipboard_holds_a_link Scenario.posixHost w effects text E).
  now left.
Defined.

(** X15: no [GetPermalinkError] leaves the command: when a run throws,
    what it throws is what [getAPI], [Uri.parse] or the [fileUri.toString()]
    of [getRepositoryInfo] threw, unchanged, and nothing was written or
    shown before. *)
Theorem X15_what_leaves_the_command (host : Host) (w : Window) (what : jsstring) :
  getPermalink host w = Rethrown what ->
  exists gitExtension,
    gitExports w = Some gitExtension /\
    (getAPI gitExtension 1 = Throws (OtherException what) \/
     exists git editor,
       getAPI gitExtension 1 = Returns git /\
       activeTextEditor w = Some editor /\
       (Uri_parse w (Editor.fileName (Editor.document editor)) =
        Throws (OtherException what) \/
        exists fileUri,
          Uri_parse w (Editor.fileName (Editor.document editor)) =
          Returns fileUri /\
          Uri_toString_throws w fileUri = Some what)).
Proof.
  unfold getPermalink, linkOfWindow, getGitOrElse, getSelectionInfo.
  destruct (gitExports w) as [gitExtension|]; [|discriminate].
  cbn [failIfUndefined ofResult andThen].
  destruct (getAPI gitExtension 1) as [git|[err|other]] eqn:Eapi;
    cbn [andThen]; [| discriminate |].
  - destruct (activeTextEditor w) as [editor|]; [|discriminate].
    cbn [failIfUndefined ofResult andThen].
    destruct (Uri_parse w (Editor.fileName (Editor.document editor)))
      as [uri|[err|other]] eqn:Eparse; cbn [andThen]; [|discriminate|].
    + unfold getLinkForSelection_outcome. cbn [fileUri].
      destruct (Uri_toString_throws w uri) as [thrown|] eqn:Eshown.
      * intros [= <-]. exists gitExtension. split; [reflexivity|].
        right. exists git, editor. split; [exact Eapi|]. split; [reflexivity|].
        right. exists uri. auto.
      * match goal with
        | |- context [getLinkForSelection host git ?s] =>
          destruct (getLinkForSelection host git s); discriminate
        end.
    + intros [= <-]. exists gitExtension. split; [reflexivity|].
      right. exists git, editor. auto.
  - intros [= <-]. exists gitExtension. auto.
Qed.

Lemma X15_what_leaves_the_command_witness :
  let name := js "/repo/" ++ [0xD800%N] ++ js ".ts" in
  let editor :=
      {| Editor.document := {| Editor.fileName := name |};
         Editor.selection :=
           {| Editor.start := {| Editor.line := 0; Editor.character := 0 |};
              Editor.end_ := {| Editor.line := 0; Editor.character := 0 |};
              Editor.isSingleLine := true |} |} in
  let gitExtension :=
      {| getAPI := fun _ => Returns (Scenario.gitWith Scenario.foobar) |} in
  let loneSurrogate := fun u : vscode.Uri =>
      if existsb (fun c => URL.isHighSurrogate c || URL.isLowSurrogate c)
                 (vscode.path u)
      then Some (js "URIError: URI malformed") else None in
  let w := {| gitExports := Some gitExtension;
              activeTextEditor := Some editor;
              Uri_parse := fun text => Returns (Scenario.fileAt text);
              Uri_toString_throws := loneSurrogate;
              clipboard_writeText := fun _ => None |} in
  getPermalink Scenario.posixHost w = Rethrown (js "URIError: URI malformed") /\
  exists fileUri,
    Uri_parse w name = Returns fileUri /\
    Uri_toString_throws w fileUri = Some (js "URIError: URI malformed").
Proof.
  intros name editor gitExtension loneSurrogate w.
  assert (E : getPermalink Scenario.posixHost w =
              Rethrown (js "URIError: URI malformed")) by reflexivity.
  split; [exact E|].
  destruct (X15_what_leaves_the_command Scenario.posixHost w _ E)
    as (ext & Hext & [Hapi|(git & ed & Hapi & Hed & [Hparse|Hshown])]).
  - injection Hext as <-. discriminate.
  - injection Hed as <-. discriminate.
  - injection Hed as <-. exact Hshown.
Defined.
